(** * Tag compliance auditor ([src/tag_audit.py]): shallow embedding and
    verification of its audit, summary and CSV paths.

    The embedding follows the Python source line by line.  Python values are
    modelled as the code has them: [str] as [string], [int] as [Z], [float]
    as IEEE binary64 ([PrimFloat.float]), a [dict] used as a tag mapping as
    [gmap string string], exceptions as the [Raise] branch of [result]. *)

From Stdlib Require Import ZArith Ascii String.
From Stdlib Require Import Floats.PrimFloat Floats.SpecFloat Floats.FloatOps.
From Stdlib Require Import Floats.FloatAxioms.
From stdpp Require Import gmap strings list pretty.

Open Scope Z_scope.

(** ** The part of the Python runtime the script relies on *)

Module Py.

(** Exceptions that can travel through the script.  [KeyboardInterrupt]
    stands for the [BaseException]s that are not [Exception]s. *)
Inductive exn :=
| IndexError
| ZeroDivisionError
| OverflowError
| ValueError
| AzureError (msg : string)
| OtherException (msg : string)
| KeyboardInterrupt.

(** [isinstance(e, AzureError)] *)
Definition is_AzureError (e : exn) : bool :=
  match e with AzureError _ => true | _ => false end.

(** [isinstance(e, Exception)] *)
Definition is_Exception (e : exn) : bool :=
  match e with KeyboardInterrupt => false | _ => true end.

(** [str(e)] *)
Definition exn_str (e : exn) : string :=
  match e with
  | IndexError => "list index out of range"
  | ZeroDivisionError => "division by zero"
  | OverflowError => "integer division result too large for a float"
  | ValueError => "cannot convert float NaN to integer"
  | AzureError msg => msg
  | OtherException msg => msg
  | KeyboardInterrupt => EmptyString
  end.

Inductive result (A : Type) :=
| Ok (a : A)
| Raise (e : exn).
Arguments Ok {A} a.
Arguments Raise {A} e.

Definition bind {A B} (m : result A) (k : A → result B) : result B :=
  match m with
  | Ok a => k a
  | Raise e => Raise e
  end.

(** A number as [generate_summary] stores it: the literal [0] is an [int],
    the value of [round(..., 2)] is a [float]. *)
Inductive num :=
| Int (z : Z)
| Float (f : float).

(** *** Strings and lists *)

(** [c in s] for a one-character [c] *)
Fixpoint str_contains (c : ascii) (s : string) : bool :=
  match s with
  | EmptyString => false
  | String a s' => if Ascii.eqb a c then true else str_contains c s'
  end.

(** [s.split(c)] for a one-character separator: never empty, one more
    segment than there are separators. *)
Fixpoint str_split (c : ascii) (s : string) : list string :=
  match s with
  | EmptyString => [EmptyString]
  | String a s' =>
      if Ascii.eqb a c then EmptyString :: str_split c s'
      else match str_split c s' with
           | seg :: segs => String a seg :: segs
           | [] => [String a EmptyString]
           end
  end.

(** [l[i]] for [i >= 0] *)
Definition index {A} (l : list A) (i : nat) : result A :=
  match l !! i with
  | Some x => Ok x
  | None => Raise IndexError
  end.

(** [sep.join(l)] *)
Fixpoint str_join (sep : string) (l : list string) : string :=
  match l with
  | [] => EmptyString
  | [x] => x
  | x :: rest => x +:+ sep +:+ str_join sep rest
  end.

(** [str(b)] and [str(n)] *)
Definition str_bool (b : bool) : string := if b then "True" else "False".
Definition str_int (z : Z) : string := pretty z.

(** [len(l)] *)
Definition len {A} (l : list A) : Z := Z.of_nat (length l).

(** *** Numbers *)

(** An [int] as an unrounded binary value. *)
Definition Z2SF (z : Z) : spec_float :=
  match z with
  | Z0 => S754_zero false
  | Zpos p => S754_finite false p 0
  | Zneg p => S754_finite true p 0
  end.

(** [a / b] on two [int]s: the exact quotient rounded once to binary64
    (to nearest, ties to even); [ZeroDivisionError] for [b = 0] and
    [OverflowError] when the quotient is too large for a [float]. *)
Definition int_truediv (a b : Z) : result float :=
  if b =? 0 then Raise ZeroDivisionError
  else match SFdiv prec emax (Z2SF a) (Z2SF b) with
       | S754_infinity _ | S754_nan => Raise OverflowError
       | q => Ok (SF2Prim q)
       end.

(** [int(x)] on a [float]: truncation towards zero. *)
Definition int_of_float (x : float) : result Z :=
  match Prim2SF x with
  | S754_zero _ => Ok 0
  | S754_finite s m e =>
      let a := if 0 <=? e then Z.pos m * 2 ^ e else Z.pos m / 2 ^ (- e) in
      Ok (if s then - a else a)
  | S754_infinity _ => Raise OverflowError
  | S754_nan => Raise ValueError
  end.

(** The integer nearest to [n / d] ([d > 0]), ties to the even one. *)
Definition div_half_even (n d : Z) : Z :=
  let q := n / d in
  let r := n mod d in
  match 2 * r ?= d with
  | Lt => q
  | Gt => q + 1
  | Eq => if Z.even q then q else q + 1
  end.

(** [round(x, ndigits)] on a [float], for [0 <= ndigits]: the exact binary
    value of [x] is rounded to [ndigits] decimals (ties to even) and the
    decimal is read back as the nearest [float].  Non-finite values and
    zeros round to themselves, and so does every [x] when [ndigits]
    exceeds 323.  CPython also has an [OverflowError] exit for a decimal
    beyond the largest [float]; it is left out, since a [float] of magnitude
    [2 ^ 52] or more is an integer and is its own decimal. *)
Definition round_ndigits (x : float) (ndigits : nat) : float :=
  match Prim2SF x with
  | S754_finite s m e =>
      if (323 <? Z.of_nat ndigits) then x
      else
        let p := 10 ^ Z.of_nat ndigits in
        let k := if 0 <=? e then Z.pos m * p * 2 ^ e
                 else div_half_even (Z.pos m * p) (2 ^ (- e)) in
        let dec := match k with
                   | Zpos kp => S754_finite s kp 0
                   | _ => S754_zero s
                   end in
        SF2Prim (SFdiv prec emax dec (Z2SF p))
  | _ => x
  end.

End Py.

Import Py.

#[global] Instance result_bind : MBind result := λ A B k m, Py.bind m k.
#[global] Instance result_ret : MRet result := @Ok.

(** ** Data model *)

(** A resource as the SDK hands it over; [tags] is [None] when the resource
    carries no tag mapping. *)
Record Resource := {
  name : string;
  type : string;
  id : string;
  location : string;
  tags : option (gmap string string)
}.

(** The dictionary built by [audit_resource]. *)
Record AuditResult := {
  resource_name : string;
  resource_type : string;
  resource_group : string;
  result_location : string;
  result_tags : gmap string string;
  missing_tags : list string;
  compliant : bool;
  compliance_percentage : Z
}.

(** The dictionary built by [generate_summary]. *)
Record Summary := {
  audit_timestamp : string;
  total_resources : Z;
  compliant_resources : Z;
  non_compliant_resources : Z;
  compliance_rate : num;
  required_tags : list string
}.

(** ** [TagAuditor] *)

Definition REQUIRED_TAGS : list string := ["environment"; "owner"; "project"].

Definition slash : ascii := "/"%char.

(** [resource.tags if resource.tags else {}]: [None] and the empty mapping
    are both falsy. *)
Definition tags_or_empty (t : option (gmap string string)) : gmap string string :=
  match t with
  | Some m => if decide (m = ∅) then ∅ else m
  | None => ∅
  end.

(** [[tag for tag in REQUIRED_TAGS if tag not in resource_tags]] *)
Definition missing_of (resource_tags : gmap string string) : list string :=
  filter (λ tag, resource_tags !! tag = None) REQUIRED_TAGS.

(** [resource.id.split('/')[4] if '/' in resource.id else 'unknown'] *)
Definition resource_group_of (rid : string) : result string :=
  if str_contains slash rid then index (str_split slash rid) 4
  else Ok "unknown".

(** [int(((len(REQUIRED_TAGS) - len(missing_tags)) / len(REQUIRED_TAGS)) * 100)] *)
Definition percentage_of (missing : list string) : result Z :=
  q ← int_truediv (len REQUIRED_TAGS - len missing) (len REQUIRED_TAGS);
  int_of_float (q * 100)%float.

(** [TagAuditor.audit_resource]; the entries of the dictionary literal are
    evaluated top to bottom. *)
Definition audit_resource (resource : Resource) : result AuditResult :=
  let resource_tags := tags_or_empty (tags resource) in
  let missing := missing_of resource_tags in
  rg ← resource_group_of (id resource);
  pct ← percentage_of missing;
  Ok {| resource_name := name resource;
        resource_type := type resource;
        resource_group := rg;
        result_location := location resource;
        result_tags := resource_tags;
        missing_tags := missing;
        compliant := bool_decide (len missing = 0);
        compliance_percentage := pct |}.

(** [TagAuditor.generate_summary]; [utcnow] is the text of
    [datetime.utcnow().isoformat()] at the time of the call. *)
Definition generate_summary (utcnow : string) (audit_results : list AuditResult)
  : result Summary :=
  let total := len audit_results in
  let compliant_count :=
    foldl (λ acc r, if compliant r then acc + 1 else acc) 0 audit_results in
  let non_compliant := total - compliant_count in
  rate ← (if 0 <? total
          then q ← int_truediv compliant_count total;
               Ok (Float (round_ndigits (q * 100)%float 2))
          else Ok (Int 0));
  Ok {| audit_timestamp := utcnow +:+ "Z";
        total_resources := total;
        compliant_resources := compliant_count;
        non_compliant_resources := non_compliant;
        compliance_rate := rate;
        required_tags := REQUIRED_TAGS |}.

(** ** The [csv] module, [excel] dialect *)

Module Csv.

Definition comma : ascii := ","%char.
Definition dquote : ascii := "034"%char.
Definition cr : ascii := "013"%char.
Definition lf : ascii := "010"%char.

(** The characters that force a field into quotes. *)
Definition special (c : ascii) : bool :=
  Ascii.eqb c comma || Ascii.eqb c dquote || Ascii.eqb c cr || Ascii.eqb c lf.

Fixpoint needs_quotes (s : string) : bool :=
  match s with
  | EmptyString => false
  | String c s' => special c || needs_quotes s'
  end.

(** Every quote character of the field is doubled. *)
Fixpoint double_quotes (s : string) : string :=
  match s with
  | EmptyString => EmptyString
  | String c s' =>
      if Ascii.eqb c dquote then String dquote (String dquote (double_quotes s'))
      else String c (double_quotes s')
  end.

(** A field under [QUOTE_MINIMAL]: quoted only when it holds a special
    character. *)
Definition field (s : string) : string :=
  if needs_quotes s
  then String dquote (double_quotes s) +:+ String dquote EmptyString
  else s.

Definition lineterminator : string := String cr (String lf EmptyString).

(** [writer.writerow(fields)]: the text written for one record. *)
Definition writerow (fields : list string) : string :=
  str_join (String comma EmptyString) (field <$> fields) +:+ lineterminator.

End Csv.

(** ** Report rendering *)

Definition newline : string := String Csv.lf EmptyString.

(** [print(text)] on the standard output, which is modelled as the list of
    the texts written, oldest first. *)
Definition print (text : string) (stdout : list string) : list string :=
  stdout ++ [text +:+ newline].

Definition fieldnames : list string :=
  ["resource_name"; "resource_type"; "resource_group"; "location";
   "compliant"; "compliance_percentage"; "missing_tags"].

(** The [csv_row] dictionary of [output_csv], in the order of [fieldnames],
    each value as [DictWriter] turns it into text. *)
Definition csv_row (result : AuditResult) : list string :=
  [resource_name result;
   resource_type result;
   resource_group result;
   result_location result;
   str_bool (compliant result);
   str_int (compliance_percentage result);
   match missing_tags result with
   | [] => "none"
   | _ :: _ => str_join ", " (missing_tags result)
   end].

Section Rendering.

(** [repr] of a [float], the shortest decimal that reads back as the same
    [float]; it belongs to the interpreter. *)
Variable float_repr : float → string.

(** [f"{n}"] *)
Definition str_num (n : num) : string :=
  match n with
  | Int z => str_int z
  | Float f => float_repr f
  end.

(** [output_csv]: what the call appends to the standard output. *)
Definition output_csv (audit_results : list AuditResult) (summary : Summary)
    (stdout : list string) : list string :=
  let stdout := print ("# Audit Timestamp: " +:+ audit_timestamp summary) stdout in
  let stdout := print ("# Total Resources: " +:+ str_int (total_resources summary)) stdout in
  let stdout := print ("# Compliant: " +:+ str_int (compliant_resources summary)) stdout in
  let stdout := print ("# Non-Compliant: " +:+ str_int (non_compliant_resources summary)) stdout in
  let stdout := print ("# Compliance Rate: " +:+ str_num (compliance_rate summary) +:+ "%") stdout in
  let stdout := print EmptyString stdout in
  match audit_results with
  | [] => stdout
  | _ :: _ =>
      let stdout := stdout ++ [Csv.writerow fieldnames] in
      foldl (λ out result, out ++ [Csv.writerow (csv_row result)]) stdout audit_results
  end.

End Rendering.

(** ** The audit run *)

(** The Azure SDK as the auditor uses it.  [probe] is the body of the [try]
    in [authenticate] (credential, client, listing of the resource groups);
    the other two are the listing calls of [get_resources]. *)
Record AzureClient := {
  probe : result unit;
  list_by_resource_group : string → result (list Resource);
  list_all : result (list Resource)
}.

(** A method call: the value returned or the exception raised, and the lines
    written to the standard error stream. *)
Definition io (A : Type) : Type := list string → result A * list string.

Definition io_ret {A} (a : A) : io A := λ err, (Ok a, err).
Definition io_raise {A} (e : exn) : io A := λ err, (Raise e, err).
Definition io_bind {A B} (m : io A) (k : A → io B) : io B :=
  λ err, match m err with
         | (Ok a, err') => k a err'
         | (Raise e, err') => (Raise e, err')
         end.
Definition eprint (text : string) : io unit := λ err, (Ok tt, err ++ [text]).

Notation "'do' x <- m ; k" := (io_bind m (λ x, k))
  (at level 10, x name, m at level 100, k at level 200).
Notation "m ;; k" := (io_bind m (λ _, k))
  (at level 100, k at level 200, right associativity).

(** [TagAuditor.authenticate]: [except AzureError], then
    [except Exception]. *)
Definition authenticate (client : AzureClient) : io bool :=
  match probe client with
  | Ok _ => eprint "Authentication successful." ;; io_ret true
  | Raise e =>
      if is_AzureError e then
        eprint ("Authentication failed: " +:+ exn_str e) ;; io_ret false
      else if is_Exception e then
        eprint ("Unexpected error during authentication: " +:+ exn_str e) ;; io_ret false
      else io_raise e
  end.

(** The scope of the audit: [self.resource_group], truthy when it is a
    non-empty string. *)
Definition scope_of (resource_group : option string) : option string :=
  match resource_group with
  | Some EmptyString => None
  | Some rg => Some rg
  | None => None
  end.

(** [TagAuditor.get_resources]: inside the [try] the scan line is written,
    then the listing call is made; only an [AzureError] is caught. *)
Definition get_resources (client : AzureClient) (resource_group : option string)
  : io (list Resource) :=
  do listed <- match scope_of resource_group with
               | Some rg =>
                   eprint ("Scanning resources in resource group: " +:+ rg) ;;
                   io_ret (list_by_resource_group client rg)
               | None =>
                   eprint "Scanning all resources in subscription" ;;
                   io_ret (list_all client)
               end ;
  match listed with
  | Ok resources =>
      eprint ("Found " +:+ str_int (len resources) +:+ " resources to audit.") ;;
      io_ret resources
  | Raise e =>
      if is_AzureError e then
        eprint ("Error retrieving resources: " +:+ exn_str e) ;; io_ret []
      else io_raise e
  end.

(** The [for] loop of [run_audit]: results are appended in source order and
    the first exception ends the loop. *)
Fixpoint audit_all (resources : list Resource) (audit_results : list AuditResult)
  : result (list AuditResult) :=
  match resources with
  | [] => Ok audit_results
  | resource :: rest =>
      result ← audit_resource resource;
      audit_all rest (audit_results ++ [result])
  end.

(** [TagAuditor.run_audit] *)
Definition run_audit (client : AzureClient) (resource_group : option string)
  : io (list AuditResult) :=
  do authenticated <- authenticate client ;
  if negb authenticated then
    eprint "Cannot proceed without authentication." ;; io_ret []
  else
    do resources <- get_resources client resource_group ;
    match resources with
    | [] => eprint "No resources found to audit." ;; io_ret []
    | _ :: _ => λ err, (audit_all resources [], err)
    end.

(** ** Auxiliary definitions for the statements *)

(** The number of compliant results, counted directly. *)
Definition count_compliant (l : list AuditResult) : Z :=
  len (filter (λ r, compliant r = true) l).

(** The [compliance_rate] entry of [generate_summary] as a function of the
    two counts. *)
Definition rate_of (c n : Z) : result num :=
  if 0 <? n
  then q ← int_truediv c n; Ok (Float (round_ndigits (q * 100)%float 2))
  else Ok (Int 0).

(** The listing call that [get_resources] makes for a given scope. *)
Definition listing (client : AzureClient) (resource_group : option string)
  : result (list Resource) :=
  match scope_of resource_group with
  | Some rg => list_by_resource_group client rg
  | None => list_all client
  end.

(** ** Sample data *)

Definition vm1 : Resource :=
  {| name := "vm1";
     type := "Microsoft.Compute/virtualMachines";
     id := "/subscriptions/s1/resourceGroups/rg1/providers/Microsoft.Compute/virtualMachines/vm1";
     location := "eastus";
     tags := Some {[ "environment" := "prod" ]} |}.

Definition vm_no_owner : Resource :=
  {| name := "vm2";
     type := "Microsoft.Compute/virtualMachines";
     id := "/subscriptions/s1/resourceGroups/rg1/providers/Microsoft.Compute/virtualMachines/vm2";
     location := "eastus";
     tags := Some {[ "environment" := "prod"; "project" := "ops" ]} |}.

Definition short_id_resource : Resource :=
  {| name := "stray";
     type := "Microsoft.Storage/storageAccounts";
     id := "/subscriptions/s1";
     location := "westus";
     tags := None |}.

Definition audited_vm1 : AuditResult :=
  {| resource_name := "vm1";
     resource_type := "Microsoft.Compute/virtualMachines";
     resource_group := "rg1";
     result_location := "eastus";
     result_tags := {[ "environment" := "prod" ]};
     missing_tags := ["owner"; "project"];
     compliant := false;
     compliance_percentage := 33 |}.

Definition audited_db1 : AuditResult :=
  {| resource_name := "db1";
     resource_type := "Microsoft.Sql/servers";
     resource_group := "rg2";
     result_location := "westus";
     result_tags := {[ "environment" := "lab"; "owner" := "ops"; "project" := "audit" ]};
     missing_tags := [];
     compliant := true;
     compliance_percentage := 100 |}.

Definition empty_summary : Summary :=
  {| audit_timestamp := "2024-01-01T00:00:00Z";
     total_resources := 0;
     compliant_resources := 0;
     non_compliant_resources := 0;
     compliance_rate := Int 0;
     required_tags := REQUIRED_TAGS |}.

Definition failing_listing_client : AzureClient :=
  {| probe := Ok tt;
     list_by_resource_group := λ _, Raise (AzureError "ResourceGroupNotFound");
     list_all := Ok [vm1] |}.

Definition short_id_client : AzureClient :=
  {| probe := Ok tt;
     list_by_resource_group := λ _, Ok [];
     list_all := Ok [vm1; short_id_resource] |}.

(** ** The text report and the entry point *)

(** [c * n] on a string *)
Fixpoint str_repeat (c : string) (n : nat) : string :=
  match n with
  | O => EmptyString
  | S n' => c +:+ str_repeat c n'
  end.

(** [n < 100] as the entry point tests the rate: an [int] against the
    integer, a [float] against the float 100.0. *)
Definition below_100 (n : num) : bool :=
  match n with
  | Int z => z <? 100
  | Float f => PrimFloat.ltb f 100
  end.

(** The five [print] calls that [output_text] makes for one non-compliant
    result. *)
Definition text_block (result : AuditResult) (stdout : list string) : list string :=
  let stdout := print (newline +:+ "Resource: " +:+ resource_name result) stdout in
  let stdout := print ("  Type: " +:+ resource_type result) stdout in
  let stdout := print ("  Resource Group: " +:+ resource_group result) stdout in
  let stdout := print ("  Missing Tags: " +:+ str_join ", " (missing_tags result)) stdout in
  print ("  Compliance: " +:+ str_int (compliance_percentage result) +:+ "%") stdout.

Section TextRendering.

Variable float_repr : float → string.

(** [output_text]: what the call appends to the standard output. *)
Definition output_text (audit_results : list AuditResult) (summary : Summary)
    (stdout : list string) : list string :=
  let stdout := print (str_repeat "=" 80) stdout in
  let stdout := print "AZURE RESOURCE TAG COMPLIANCE AUDIT REPORT" stdout in
  let stdout := print (str_repeat "=" 80) stdout in
  let stdout := print (newline +:+ "Audit Timestamp: " +:+ audit_timestamp summary) stdout in
  let stdout := print ("Required Tags: " +:+ str_join ", " (required_tags summary)) stdout in
  let stdout := print (newline +:+ "Summary:") stdout in
  let stdout := print ("  Total Resources: " +:+ str_int (total_resources summary)) stdout in
  let stdout := print ("  Compliant: " +:+ str_int (compliant_resources summary)) stdout in
  let stdout := print ("  Non-Compliant: " +:+ str_int (non_compliant_resources summary)) stdout in
  let stdout :=
    print ("  Compliance Rate: " +:+ str_num float_repr (compliance_rate summary) +:+ "%")
      stdout in
  let stdout := print (newline +:+ str_repeat "=" 80) stdout in
  let stdout :=
    if 0 <? non_compliant_resources summary then
      let stdout := print (newline +:+ "NON-COMPLIANT RESOURCES:") stdout in
      let stdout := print (str_repeat "-" 80) stdout in
      foldl (λ out result, if compliant result then out else text_block result out)
        stdout audit_results
    else stdout in
  let stdout := print (newline +:+ str_repeat "=" 80) stdout in
  let stdout :=
    print ("Audit complete. " +:+ str_num float_repr (compliance_rate summary)
           +:+ "% compliant.") stdout in
  print (str_repeat "=" 80) stdout.

End TextRendering.

(** The value of [--output-format]. *)
Inductive output_format :=
| json
| csv
| text.

(** The parsed command line. *)
Record Args := {
  subscription_id : string;
  arg_resource_group : option string;
  arg_output_format : output_format
}.

(** How the process ends: [sys.exit(code)], or an exception that nothing
    catches. *)
Inductive termination :=
| Exit (code : Z)
| Uncaught (e : exn).

Section EntryPoint.

Variable float_repr : float → string.

(** [output_json] writes [json.dumps] of the two dictionaries; the encoder
    walks the tag dictionary in insertion order, which a [gmap] does not
    record, so the renderer is a parameter here. *)
Variable output_json : list AuditResult → Summary → list string → list string.

(** [main] after argument parsing: how the process ends and what it has
    written to the standard output and to the standard error stream (the
    traceback of an uncaught exception is left out). *)
Definition main (client : AzureClient) (args : Args) (utcnow : string)
  : termination * list string * list string :=
  match run_audit client (arg_resource_group args) [] with
  | (Raise e, err) => (Uncaught e, [], err)
  | (Ok [], err) => (Exit 1, [], err ++ ["Audit failed or no resources found."])
  | (Ok ((_ :: _) as audit_results), err) =>
      match generate_summary utcnow audit_results with
      | Raise e => (Uncaught e, [], err)
      | Ok summary =>
          let stdout :=
            match arg_output_format args with
            | json => output_json audit_results summary []
            | csv => output_csv float_repr audit_results summary []
            | text => output_text float_repr audit_results summary []
            end in
          (if below_100 (compliance_rate summary) then Exit 1 else Exit 0, stdout, err)
      end
  end.

End EntryPoint.

(** ** Auxiliary definitions for the statements, continued *)

(** The number of occurrences of [c] in [s]. *)
Fixpoint count_char (c : ascii) (s : string) : nat :=
  match s with
  | EmptyString => O
  | String a s' => if Ascii.eqb a c then S (count_char c s') else count_char c s'
  end.

(** The mapping of the resource has the three required keys. *)
Definition has_required_keys (resource : Resource) : Prop :=
  Forall (λ tag, tag ∈ dom (default ∅ (tags resource))) REQUIRED_TAGS.

(** The identifier of the resource yields a group. *)
Definition has_group (resource : Resource) : Prop :=
  ∃ rg, resource_group_of (id resource) = Ok rg.

(** A resource that [audit_resource] accepts and finds compliant. *)
Definition fully_tagged (resource : Resource) : Prop :=
  has_group resource ∧ has_required_keys resource.

(** The blocks of the detail section of the text report. *)
Definition text_blocks (audit_results : list AuditResult) : list string :=
  mjoin ((λ r, text_block r []) <$> filter (λ r, compliant r = false) audit_results).

(** More sample data. *)

Definition db1 : Resource :=
  {| name := "db1";
     type := "Microsoft.Sql/servers";
     id := "/subscriptions/s1/resourceGroups/rg2/providers/Microsoft.Sql/servers/db1";
     location := "westus";
     tags := Some {[ "environment" := "lab"; "owner" := "ops"; "project" := "audit" ]} |}.

Definition healthy_client : AzureClient :=
  {| probe := Ok tt;
     list_by_resource_group := λ _, Ok [db1];
     list_all := Ok [vm1; db1] |}.

Definition text_args : Args :=
  {| subscription_id := "s1";
     arg_resource_group := None;
     arg_output_format := text |}.

Definition csv_scoped_args : Args :=
  {| subscription_id := "s1";
     arg_resource_group := Some "rg-missing";
     arg_output_format := csv |}.

(** One required key with an empty value, and tags that are not required. *)
Definition vm_other_tags : Resource :=
  {| name := "vm9";
     type := "Microsoft.Compute/virtualMachines";
     id := "/subscriptions/s1/resourceGroups/rg9/providers/Microsoft.Compute/virtualMachines/vm9";
     location := "northeurope";
     tags := Some {[ "environment" := EmptyString; "costcenter" := "42"; "Owner" := "me" ]} |}.

(** An identifier without a slash and no required key. *)
Definition plain_id_resource : Resource :=
  {| name := "legacy";
     type := "Classic/thing";
     id := "plain";
     location := "global";
     tags := Some {[ "Owner" := "me" ]} |}.

Definition audited_plain : AuditResult :=
  {| resource_name := "legacy";
     resource_type := "Classic/thing";
     resource_group := "unknown";
     result_location := "global";
     result_tags := {[ "Owner" := "me" ]};
     missing_tags := ["environment"; "owner"; "project"];
     compliant := false;
     compliance_percentage := 0 |}.

Definition audited_vm_other_tags : AuditResult :=
  {| resource_name := "vm9";
     resource_type := "Microsoft.Compute/virtualMachines";
     resource_group := "rg9";
     result_location := "northeurope";
     result_tags := {[ "environment" := EmptyString; "costcenter" := "42"; "Owner" := "me" ]};
     missing_tags := ["owner"; "project"];
     compliant := false;
     compliance_percentage := 33 |}.

Definition empty_client : AzureClient :=
  {| probe := Ok tt;
     list_by_resource_group := λ _, Ok [];
     list_all := Ok [] |}.

Definition untagged_client : AzureClient :=
  {| probe := Ok tt;
     list_by_resource_group := λ _, Ok [];
     list_all := Ok [plain_id_resource; vm1] |}.

Definition compliant_client : AzureClient :=
  {| probe := Ok tt;
     list_by_resource_group := λ _, Ok [];
     list_all := Ok [db1; db1] |}.

(** 19999 fully tagged resources followed by one that lacks two tags. *)
Definition nearly_compliant_resources : list Resource :=
  replicate (Z.to_nat 19999) db1 ++ [vm1].

Definition nearly_compliant_client : AzureClient :=
  {| probe := Ok tt;
     list_by_resource_group := λ _, Ok [];
     list_all := Ok nearly_compliant_resources |}.

(** A client whose listing call fails with an exception that is not an
    [AzureError]. *)
Definition crashing_listing_client : AzureClient :=
  {| probe := Ok tt;
     list_by_resource_group := λ _, Ok [];
     list_all := Raise (OtherException "connection reset") |}.

(** Whether [k] hundredths, read back as a float, are below 100.0. *)
Definition hundredths_below_100 (k : Z) : bool :=
  PrimFloat.ltb (SF2Prim (SFdiv prec emax (Z2SF k) (Z2SF 100))) 100.

(** A renderer and a float printer to run [main] with. *)
Definition no_json (audit_results : list AuditResult) (summary : Summary)
    (stdout : list string) : list string := stdout.

Definition no_repr (f : float) : string := "?".


(** The text on the standard output: the texts written, one after the
    other. *)
Definition written (stdout : list string) : string :=
  foldr String.append EmptyString stdout.

(** The text made of the given lines, each ended by a line break. *)
Definition unlines (lines : list string) : string :=
  written ((λ line, line +:+ newline) <$> lines).

(** A text without a line break. *)
Definition single_line (s : string) : Prop := str_contains Csv.lf s = false.

(** The six lines of the detail section of the text report for one
    result: the [print] calls of the loop body, the first of which starts
    with a line break. *)
Definition block_lines (result : AuditResult) : list string :=
  [EmptyString;
   "Resource: " +:+ resource_name result;
   "  Type: " +:+ resource_type result;
   "  Resource Group: " +:+ resource_group result;
   "  Missing Tags: " +:+ str_join ", " (missing_tags result);
   "  Compliance: " +:+ str_int (compliance_percentage result) +:+ "%"].

(** The lines of the text report. *)
Definition report_lines (float_repr : float → string)
    (audit_results : list AuditResult) (summary : Summary) : list string :=
  [str_repeat "=" 80;
   "AZURE RESOURCE TAG COMPLIANCE AUDIT REPORT";
   str_repeat "=" 80;
   EmptyString;
   "Audit Timestamp: " +:+ audit_timestamp summary;
   "Required Tags: " +:+ str_join ", " (required_tags summary);
   EmptyString;
   "Summary:";
   "  Total Resources: " +:+ str_int (total_resources summary);
   "  Compliant: " +:+ str_int (compliant_resources summary);
   "  Non-Compliant: " +:+ str_int (non_compliant_resources summary);
   "  Compliance Rate: " +:+ str_num float_repr (compliance_rate summary) +:+ "%";
   EmptyString;
   str_repeat "=" 80]
  ++ (if 0 <? non_compliant_resources summary
      then [EmptyString; "NON-COMPLIANT RESOURCES:"; str_repeat "-" 80]
           ++ mjoin (block_lines <$> filter (λ r, compliant r = false) audit_results)
      else [])
  ++ [EmptyString;
      str_repeat "=" 80;
      "Audit complete. " +:+ str_num float_repr (compliance_rate summary)
      +:+ "% compliant.";
      str_repeat "=" 80].

(** The texts of a result that the text report prints hold no line
    break. *)
Definition report_fields_single_line (result : AuditResult) : Prop :=
  single_line (resource_name result)
  ∧ single_line (resource_type result)
  ∧ single_line (resource_group result)
  ∧ Forall single_line (missing_tags result).

(** The rate as the specification words it, to compare with the code:
    [C / N * 100] as an exact number, rounded to two decimals and counted in
    hundredths; ties go to the even hundredth, or upwards. *)
Definition exact_hundredths_half_even (c n : Z) : Z := div_half_even (10000 * c) n.

Definition exact_hundredths_half_up (c n : Z) : Z := (2 * (10000 * c) + n) / (2 * n).

(** 160 results of which 23 are compliant. *)
Definition results_23_of_160 : list AuditResult :=
  replicate 23 audited_db1 ++ replicate 137 audited_vm1.

(** Whether [k / 100] is a float. *)
Definition hundredths_is_float (k : Z) : bool :=
  match int_truediv k 100 with
  | Ok _ => true
  | Raise _ => false
  end.

(** * Verification *)

(** ** Range of the rounded quotient

    [int_truediv] raises [OverflowError] when the rounded quotient is not
    finite.  The lemmas below follow the exponent through the two shifts of
    [binary_round_aux] and show that a quotient of at most one is safe. *)

Section FloatRange.

Lemma digits2_size p : digits2_pos p = Pos.size p.
Proof. induction p; simpl; congruence. Qed.

(** A value below [2 ^ k] has at most [k] binary digits. *)
Lemma Zdigits2_le_pow m k : 0 ≤ k → 0 ≤ m < 2 ^ k → Zdigits2 m ≤ k.
Proof.
  intros Hk [Hm Hlt]. destruct m as [|p|p]; simpl; [lia| |lia].
  rewrite digits2_size.
  destruct (Z_le_gt_dec (Z.pos (Pos.size p)) k) as [|Hgt]; [done|exfalso].
  pose proof (Pos.size_le p) as Hle.
  assert (Hp : 2 ^ Z.pos (Pos.size p) ≤ 2 * Z.pos p).
  { replace (2 ^ Z.pos (Pos.size p)) with (Z.pos (2 ^ Pos.size p))
      by (rewrite Pos2Z.inj_pow; done).
    change (2 * Z.pos p) with (Z.pos p~0). lia. }
  assert (2 ^ (k + 1) ≤ 2 ^ Z.pos (Pos.size p)) by (apply Z.pow_le_mono_r; lia).
  rewrite Z.pow_add_r in * by lia. lia.
Qed.

Lemma Zdigits2_succ m : 0 ≤ m → Zdigits2 (m + 1) ≤ Zdigits2 m + 1.
Proof.
  intros Hm. destruct m as [|p|p]; simpl; [lia| |lia].
  replace (p + 1)%positive with (Pos.succ p) by lia.
  induction p; simpl in *; lia.
Qed.

Lemma shr_1_digits s :
  0 ≤ shr_m s →
  0 ≤ shr_m (shr_1 s) ∧ Zdigits2 (shr_m (shr_1 s)) = Z.max 0 (Zdigits2 (shr_m s) - 1).
Proof.
  destruct s as [m r t]; simpl. intros Hm.
  destruct m as [|[p|p|]|p]; simpl; lia.
Qed.

Lemma iter_shr_1_digits p : ∀ s,
  0 ≤ shr_m s →
  0 ≤ shr_m (SpecFloat.iter_pos shr_1 p s) ∧
  Zdigits2 (shr_m (SpecFloat.iter_pos shr_1 p s)) = Z.max 0 (Zdigits2 (shr_m s) - Z.pos p).
Proof.
  induction p as [p IH|p IH|]; intros s Hs; simpl.
  - destruct (shr_1_digits s Hs) as [H1 E1].
    destruct (IH _ H1) as [H2 E2]. destruct (IH _ H2) as [H3 E3].
    split; [done|]. rewrite E3, E2, E1. lia.
  - destruct (IH _ Hs) as [H2 E2]. destruct (IH _ H2) as [H3 E3].
    split; [done|]. rewrite E3, E2. lia.
  - apply shr_1_digits, Hs.
Qed.

(** One rounding shift: the mantissa stays non-negative, and the exponent
    and the position of the leading digit are bounded by those of the
    input. *)
Lemma shr_fexp_range m e l b :
  0 ≤ m → e ≤ emax - prec → Zdigits2 m + e ≤ b → b ≤ emax →
  let '(mrs, e') := shr_fexp prec emax m e l in
  0 ≤ shr_m mrs ∧ e' ≤ emax - prec ∧ Zdigits2 (shr_m mrs) + e' ≤ Z.max b (emax - prec).
Proof.
  intros Hm He Hd Hb. unfold shr_fexp, shr.
  assert (Hrec : shr_m (shr_record_of_loc m l) = m) by (by destruct l as [|[]]).
  set (n := fexp prec emax (Zdigits2 m + e) - e).
  assert (Hn : n = Z.max (Zdigits2 m + e - 53) (-1074) - e) by reflexivity.
  unfold prec, emax in *.
  destruct n as [|p|p] eqn:En.
  - rewrite Hrec. lia.
  - destruct (iter_shr_1_digits p (shr_record_of_loc m l)) as [H1 E1]; [by rewrite Hrec|].
    rewrite Hrec in E1. split; [done|]. rewrite E1. lia.
  - rewrite Hrec. lia.
Qed.

Lemma round_nearest_even_range m l :
  0 ≤ m → 0 ≤ round_nearest_even m l ∧ Zdigits2 (round_nearest_even m l) ≤ Zdigits2 m + 1.
Proof.
  intros Hm. pose proof (Zdigits2_succ m Hm).
  unfold round_nearest_even. destruct l as [|[]]; try destruct (Z.even m); lia.
Qed.

(** Rounding a value below [2 ^ (emax - 1)] yields a zero or a finite
    number. *)
Lemma binary_round_aux_finite sx mx ex lx :
  0 ≤ mx → ex ≤ emax - prec → Zdigits2 mx + ex ≤ emax - 1 →
  match binary_round_aux prec emax sx mx ex lx with
  | S754_zero _ | S754_finite _ _ _ => True
  | _ => False
  end.
Proof.
  intros Hm He Hd. unfold binary_round_aux.
  pose proof (shr_fexp_range mx ex lx (emax - 1) Hm He Hd) as H1.
  destruct (shr_fexp prec emax mx ex lx) as [mrs' e'].
  destruct H1 as (H1 & He' & Hd'); [unfold emax; lia|].
  destruct (round_nearest_even_range (shr_m mrs') (loc_of_shr_record mrs') H1) as [H2 Hd2].
  pose proof (shr_fexp_range (round_nearest_even (shr_m mrs') (loc_of_shr_record mrs')) e'
                loc_Exact emax H2 He') as H3.
  destruct (shr_fexp prec emax _ e' loc_Exact) as [mrs'' e''].
  destruct H3 as (H3 & He'' & _); [unfold emax, prec in *; lia|lia|].
  destruct (shr_m mrs'') as [|p|p]; [done| |lia].
  by rewrite (proj2 (Z.leb_le _ _) He'').
Qed.

(** [a / b] with [0 <= a <= b] and [0 < b] returns. *)
Lemma int_truediv_le a b :
  0 ≤ a ≤ b → 0 < b → ∃ q, int_truediv a b = Ok q.
Proof.
  intros [Ha Hab] Hb. unfold int_truediv.
  destruct (Z.eqb_spec b 0) as [|_]; [lia|].
  destruct b as [|pb|pb]; try lia.
  destruct a as [|pa|pa]; try lia; simpl; [eauto|].
  unfold SFdiv_core_binary.
  set (d := Zdigits2 (Z.pos pa) + 0 - (Zdigits2 (Z.pos pb) + 0)).
  set (e' := Z.min (fexp prec emax d) (0 - 0)).
  set (s := 0 - 0 - e').
  assert (Hs : 0 ≤ s) by (unfold s, e'; lia).
  set (m' := match s with
             | Z.pos _ => Z.shiftl (Z.pos pa) s
             | 0 => Z.pos pa
             | Z.neg _ => 0
             end).
  assert (Hm' : m' = Z.pos pa * 2 ^ s).
  { unfold m'. destruct s; [simpl; lia| |lia]. by rewrite Z.shiftl_mul_pow2. }
  pose proof (Z_div_mod m' (Z.pos pb) ltac:(lia)) as Hdm.
  destruct (Z.div_eucl m' (Z.pos pb)) as [q r]. destruct Hdm as [Hq Hr].
  assert (H2s : 0 < 2 ^ s) by (apply Z.pow_pos_nonneg; lia).
  assert (Hq0 : 0 ≤ q) by nia.
  assert (Hq1 : q < 2 ^ (s + 1)).
  { rewrite Z.pow_add_r by lia. nia. }
  pose proof (Zdigits2_le_pow q (s + 1) ltac:(lia) (conj Hq0 Hq1)) as Hdq.
  pose proof (binary_round_aux_finite false q e' (new_location (Z.pos pb) r)) as Hfin.
  destruct (binary_round_aux prec emax false q e' (new_location (Z.pos pb) r));
    [eauto| | |eauto]; exfalso; apply Hfin; unfold s, e', emax, prec in *; lia.
Qed.

End FloatRange.

(** ** The evaluator: [audit_resource] *)

Section Evaluator.

Lemma missing_of_length t : (length (missing_of t) ≤ 3)%nat.
Proof. unfold missing_of. rewrite length_filter. done. Qed.

(** The percentage expression returns on every list of at most three names,
    and the truncated float is the exact floor. *)
Lemma percentage_of_len missing :
  (length missing ≤ 3)%nat →
  percentage_of missing = Ok ((3 - len missing) * 100 / 3).
Proof.
  destruct missing as [|? [|? [|? [|? ?]]]]; simpl; intros H; try lia;
    vm_compute; reflexivity.
Qed.


(** [audit_resource] fails only where the group extraction fails, and
    otherwise builds this dictionary. *)
Lemma audit_resource_unfold resource :
  audit_resource resource =
  (rg ← resource_group_of (id resource);
   Ok {| resource_name := name resource;
         resource_type := type resource;
         resource_group := rg;
         result_location := location resource;
         result_tags := tags_or_empty (tags resource);
         missing_tags := missing_of (tags_or_empty (tags resource));
         compliant := bool_decide (len (missing_of (tags_or_empty (tags resource))) = 0);
         compliance_percentage :=
           (3 - len (missing_of (tags_or_empty (tags resource)))) * 100 / 3 |}).
Proof.
  unfold audit_resource.
  rewrite (percentage_of_len _ (missing_of_length _)). reflexivity.
Qed.

Lemma tags_or_empty_lookup t tag : tags_or_empty t !! tag = default ∅ t !! tag.
Proof.
  destruct t as [m|]; simpl; [|done].
  case_decide as Hm; [by rewrite Hm|done].
Qed.

End Evaluator.

(** Splits on the outcome of the group extraction and closes the branch in
    which it raised. *)
Ltac audit_cases resource :=
  rewrite (audit_resource_unfold resource);
  destruct (resource_group_of (id resource)) as [rg|e]; simpl; [|reflexivity].

(** Scenario of the specification: one tag out of three. *)
Example audit_resource_vm1 :
  audit_resource vm1 = Ok audited_vm1.
Proof. vm_compute. reflexivity. Qed.



(** C2, as stated, fails: a resource that lacks only [owner] is rated 66,
    not 67. *)
Lemma one_missing_is_not_67 :
  ¬ (∀ resource a,
       audit_resource resource = Ok a →
       len (missing_tags a) = 1 →
       compliance_percentage a = 67).
Proof.
  intros H.
  specialize (H vm_no_owner _ eq_refl eq_refl). vm_compute in H. discriminate.
Qed.

(** C2, amended: a result with exactly one missing required tag has
    [compliance_percentage] 66. *)
Theorem one_missing_is_66 (resource : Resource) (a : AuditResult) :
  audit_resource resource = Ok a →
  len (missing_tags a) = 1 →
  compliance_percentage a = 66.
Proof.
  rewrite (audit_resource_unfold resource).
  destruct (resource_group_of (id resource)) as [rg|e]; simpl; [|discriminate].
  intros [= <-]; simpl. intros ->. reflexivity.
Qed.

(** The amended C2 at [vm_no_owner], which lacks only [owner]. *)
Lemma one_missing_is_66_witness :
  ∃ a, audit_resource vm_no_owner = Ok a
       ∧ missing_tags a = ["owner"]
       ∧ compliance_percentage a = 66.
Proof.
  eexists. split; [reflexivity|]. split; [reflexivity|].
  apply (one_missing_is_66 vm_no_owner); reflexivity.
Defined.

(** C4: in every result [compliant] is the truth value of
    [compliance_percentage = 100], and the missing required tags and the
    required tags present in the mapping add up to three. *)
Theorem compliant_iff_full_percentage (resource : Resource) :
  match audit_resource resource with
  | Ok a =>
      compliant a = bool_decide (compliance_percentage a = 100)
      ∧ len (missing_tags a)
        + len (filter (λ tag, is_Some (result_tags a !! tag)) REQUIRED_TAGS)
        = 3
  | Raise e => resource_group_of (id resource) = Raise e
  end.
Proof.
  audit_cases resource. unfold missing_of, REQUIRED_TAGS.
  generalize (tags_or_empty (tags resource)); intros t.
  rewrite !filter_cons, !filter_nil.
  destruct (t !! "environment") eqn:E1, (t !! "owner") eqn:E2, (t !! "project") eqn:E3;
    repeat (case_decide; try done; try (by exfalso; eauto using is_Some_None, mk_is_Some)).
Qed.

(** C5: [missing_tags] lists the required tags that are not keys of the
    resource's mapping (an absent mapping counting as empty), each once and
    in the order environment, owner, project. *)
Theorem missing_tags_absent_in_order (resource : Resource) :
  match audit_resource resource with
  | Ok a =>
      missing_tags a
      = filter (λ tag, default ∅ (tags resource) !! tag = None)
          ["environment"; "owner"; "project"]
      ∧ sublist (missing_tags a) ["environment"; "owner"; "project"]
      ∧ ∀ tag, tag ∈ missing_tags a
               ↔ tag ∈ ["environment"; "owner"; "project"]
                 ∧ tag ∉ dom (default ∅ (tags resource))
  | Raise e => resource_group_of (id resource) = Raise e
  end.
Proof.
  audit_cases resource. unfold missing_of, REQUIRED_TAGS.
  split; [|split].
  - apply list_filter_iff. intros tag. by rewrite tags_or_empty_lookup.
  - apply sublist_filter.
  - intros tag. rewrite list_elem_of_filter, tags_or_empty_lookup, not_elem_of_dom. tauto.
Qed.

(** ** The resource group of an identifier *)

Section GroupExtraction.

Lemma str_split_no_separator c s :
  str_contains c s = false → str_split c s = [s].
Proof.
  induction s as [|a s IH]; simpl; [done|].
  destruct (Ascii.eqb a c); [done|]. intros H. by rewrite (IH H).
Qed.

(** Without a slash the group is the default. *)
Lemma resource_group_of_no_slash rid :
  str_contains slash rid = false → resource_group_of rid = Ok "unknown".
Proof. unfold resource_group_of. by intros ->. Qed.

(** With five segments or more the group is the fifth one. *)
Lemma resource_group_of_fifth rid g :
  str_split slash rid !! 4%nat = Some g → resource_group_of rid = Ok g.
Proof.
  intros H. unfold resource_group_of, index.
  destruct (str_contains slash rid) eqn:E; [by rewrite H|].
  by rewrite (str_split_no_separator _ _ E) in H.
Qed.

(** With a slash but fewer than five segments the lookup raises. *)
Lemma resource_group_of_short rid :
  str_contains slash rid = true →
  (length (str_split slash rid) ≤ 4)%nat →
  resource_group_of rid = Raise IndexError.
Proof.
  intros E H. unfold resource_group_of, index. rewrite E.
  by rewrite (proj2 (lookup_ge_None _ _) H).
Qed.

End GroupExtraction.

(** C3: the identifier [/subscriptions/s1] has a slash and three segments.
    [audit_resource] raises [IndexError] on it instead of defaulting the
    group, and a run that meets such a resource ends with that exception
    after the resources were listed. *)
Theorem audit_resource_short_id_raises :
  audit_resource short_id_resource = Raise IndexError
  ∧ run_audit short_id_client None []
    = (Raise IndexError,
       ["Authentication successful.";
        "Scanning all resources in subscription";
        "Found 2 resources to audit."]).
Proof. split; vm_compute; reflexivity. Qed.

(** ** The aggregator: [generate_summary] *)

Section Summaries.

Lemma foldl_compliant l : ∀ z,
  foldl (λ acc r, if compliant r then acc + 1 else acc) z l = z + count_compliant l.
Proof.
  unfold count_compliant, len.
  induction l as [|r l IH]; intros z; simpl; [lia|].
  rewrite IH, filter_cons.
  case_decide as Hr; [rewrite Hr|apply not_true_is_false in Hr; rewrite Hr]; simpl; lia.
Qed.

Lemma count_compliant_range l : 0 ≤ count_compliant l ≤ len l.
Proof.
  unfold count_compliant, len.
  pose proof (length_filter (λ r, compliant r = true) l). lia.
Qed.

Lemma count_compliant_perm l1 l2 : l1 ≡ₚ l2 → count_compliant l1 = count_compliant l2.
Proof. intros H. unfold count_compliant, len. by rewrite H. Qed.

Lemma len_perm {A} (l1 l2 : list A) : l1 ≡ₚ l2 → len l1 = len l2.
Proof. intros H. unfold len. by rewrite H. Qed.

Lemma generate_summary_unfold utcnow l :
  generate_summary utcnow l =
  (rate ← rate_of (count_compliant l) (len l);
   Ok {| audit_timestamp := utcnow +:+ "Z";
         total_resources := len l;
         compliant_resources := count_compliant l;
         non_compliant_resources := len l - count_compliant l;
         compliance_rate := rate;
         required_tags := REQUIRED_TAGS |}).
Proof. unfold generate_summary, rate_of. by rewrite foldl_compliant, Z.add_0_l. Qed.

(** The rate expression returns whenever the compliant count does not
    exceed the total. *)
Lemma rate_of_total c n : 0 ≤ c ≤ n → ∃ rate, rate_of c n = Ok rate.
Proof.
  intros H. unfold rate_of. destruct (Z.ltb_spec 0 n) as [Hn|Hn]; [|eauto].
  destruct (int_truediv_le c n H Hn) as [q ->]. simpl. eauto.
Qed.

End Summaries.

(** One compliant result out of two: the rate is the float 50.0. *)
Example generate_summary_half :
  generate_summary "2024-01-01T00:00:00" [audited_vm1; audited_db1]
  = Ok {| audit_timestamp := "2024-01-01T00:00:00Z";
          total_resources := 2;
          compliant_resources := 1;
          non_compliant_resources := 1;
          compliance_rate := Float 50;
          required_tags := ["environment"; "owner"; "project"] |}.
Proof. vm_compute. reflexivity. Qed.

(** One compliant result out of three: the rate is the float that prints
    as 33.33. *)
Example rate_of_one_third :
  rate_of 1 3 = Ok (Float 0x1.0aa3d70a3d70ap+5).
Proof. vm_compute. reflexivity. Qed.

(** C7: two lists of results that are permutations of each other have
    summaries that agree on the three counts, the rate and the required
    tags, whatever the two timestamps. *)
Theorem generate_summary_permutation (t1 t2 : string) (l1 l2 : list AuditResult) :
  l1 ≡ₚ l2 →
  ∃ s1 s2,
    generate_summary t1 l1 = Ok s1
    ∧ generate_summary t2 l2 = Ok s2
    ∧ total_resources s1 = total_resources s2
    ∧ compliant_resources s1 = compliant_resources s2
    ∧ non_compliant_resources s1 = non_compliant_resources s2
    ∧ compliance_rate s1 = compliance_rate s2
    ∧ required_tags s1 = required_tags s2.
Proof.
  intros Hp. rewrite !generate_summary_unfold.
  rewrite <- (count_compliant_perm _ _ Hp), <- (len_perm _ _ Hp).
  destruct (rate_of_total _ _ (count_compliant_range l1)) as [rate ->]. simpl.
  do 2 eexists. repeat split.
Qed.

(** C7 at a list of two results and its reversal. *)
Lemma generate_summary_permutation_witness :
  ∃ s1 s2,
    generate_summary "2024-01-01T00:00:00" [audited_vm1; audited_db1] = Ok s1
    ∧ generate_summary "2024-01-01T00:00:05" [audited_db1; audited_vm1] = Ok s2
    ∧ total_resources s1 = total_resources s2
    ∧ compliant_resources s1 = compliant_resources s2
    ∧ non_compliant_resources s1 = non_compliant_resources s2
    ∧ compliance_rate s1 = compliance_rate s2
    ∧ required_tags s1 = required_tags s2.
Proof. apply generate_summary_permutation. apply perm_swap. Defined.

(** ** The CSV renderer: [output_csv] *)

Section CsvLayout.

Lemma foldl_snoc_fmap {A B} (f : A → B) (l : list A) : ∀ out,
  foldl (λ out x, out ++ [f x]) out l = out ++ (f <$> l).
Proof.
  induction l as [|x l IH]; intros out; simpl.
  - by rewrite app_nil_r.
  - by rewrite IH, <- app_assoc.
Qed.

(** The header record is the seven column names, comma-separated. *)
Lemma writerow_fieldnames :
  Csv.writerow fieldnames
  = "resource_name,resource_type,resource_group,location,compliant,compliance_percentage,missing_tags"
    +:+ Csv.lineterminator.
Proof. reflexivity. Qed.

End CsvLayout.

(** Two missing tags: the joined text holds a comma, so the writer puts the
    field in quotes. *)
Example writerow_audited_vm1 :
  Csv.writerow (csv_row audited_vm1)
  = "vm1,Microsoft.Compute/virtualMachines,rg1,eastus,False,33,"
    +:+ String Csv.dquote ("owner, project" +:+ String Csv.dquote Csv.lineterminator).
Proof. reflexivity. Qed.

(** C8, as stated, fails: for the empty list the output is not five comment
    lines, a blank line, a header and the data rows. *)
Lemma output_csv_empty_has_no_header :
  ¬ (∀ (float_repr : float → string) (audit_results : list AuditResult)
       (summary : Summary),
       ∃ comments rows,
         output_csv float_repr audit_results summary []
         = comments ++ [newline] ++ [Csv.writerow fieldnames] ++ rows
         ∧ length comments = 5%nat
         ∧ length rows = length audit_results).
Proof.
  intros H.
  destruct (H (λ _, EmptyString) [] empty_summary) as (comments & rows & Hout & Hc & Hr).
  apply (f_equal length) in Hout.
  rewrite !length_app, Hc, Hr in Hout. simpl in Hout. lia.
Qed.

(** C8, amended: [output_csv] appends to the standard output the five
    comment lines (timestamp, total, compliant, non-compliant, rate) and a
    blank line; then, when there is at least one result, one header record
    with the seven column names in order and one record per result, in the
    order of the list, whose last field is the text [none] for no missing
    tag and the missing tags joined by a comma and a space otherwise.  For
    the empty list nothing follows the blank line. *)
Theorem output_csv_layout (float_repr : float → string)
    (audit_results : list AuditResult) (summary : Summary) (stdout : list string) :
  ∃ rows,
    rows = (λ r, Csv.writerow
                   [resource_name r; resource_type r; resource_group r;
                    result_location r; str_bool (compliant r);
                    str_int (compliance_percentage r);
                    match missing_tags r with
                    | [] => "none"
                    | _ :: _ => str_join ", " (missing_tags r)
                    end]) <$> audit_results
    ∧ length rows = length audit_results
    ∧ output_csv float_repr audit_results summary stdout
      = stdout
        ++ ["# Audit Timestamp: " +:+ audit_timestamp summary +:+ newline;
            "# Total Resources: " +:+ str_int (total_resources summary) +:+ newline;
            "# Compliant: " +:+ str_int (compliant_resources summary) +:+ newline;
            "# Non-Compliant: " +:+ str_int (non_compliant_resources summary) +:+ newline;
            "# Compliance Rate: "
              +:+ (str_num float_repr (compliance_rate summary) +:+ "%") +:+ newline]
        ++ [newline]
        ++ match audit_results with
           | [] => []
           | _ :: _ =>
               ["resource_name,resource_type,resource_group,location,compliant,compliance_percentage,missing_tags"
                  +:+ Csv.lineterminator]
               ++ rows
           end.
Proof.
  eexists. split; [reflexivity|]. split; [apply length_fmap|].
  unfold output_csv, print.
  destruct audit_results as [|r rest].
  - rewrite app_nil_r, <- !app_assoc. reflexivity.
  - rewrite foldl_snoc_fmap, writerow_fieldnames, <- !app_assoc. reflexivity.
Qed.

(** ** The runner: [run_audit] *)

Section Runner.

Lemma authenticate_failure client e err :
  probe client = Raise e → is_Exception e = true →
  ∃ line, authenticate client err = (Ok false, err ++ [line]).
Proof.
  intros Hp He. unfold authenticate. rewrite Hp.
  destruct (is_AzureError e); [|rewrite He]; by eexists.
Qed.

Lemma authenticate_success client err :
  probe client = Ok tt →
  authenticate client err = (Ok true, err ++ ["Authentication successful."]).
Proof. intros Hp. unfold authenticate. by rewrite Hp. Qed.

Lemma get_resources_failure client resource_group e err :
  listing client resource_group = Raise e → is_AzureError e = true →
  ∃ scan, get_resources client resource_group err
          = (Ok [], err ++ [scan] ++ ["Error retrieving resources: " +:+ exn_str e]).
Proof.
  unfold listing, get_resources. intros Hl He.
  destruct (scope_of resource_group) as [rg|];
    unfold io_bind, eprint, io_ret; simpl; rewrite Hl, He; simpl;
    rewrite <- app_assoc; by eexists.
Qed.



(** X26: an exception of the listing call that is not an [AzureError] is
    not caught by [get_resources] and leaves [run_audit]. *)
Lemma run_audit_other_exception client resource_group e err :
  probe client = Ok tt →
  listing client resource_group = Raise e → is_AzureError e = false →
  ∃ err', run_audit client resource_group err = (Raise e, err').
Proof.
  intros Hp Hl He. unfold run_audit, io_bind.
  rewrite (authenticate_success _ _ Hp). simpl.
  unfold listing, get_resources in *.
  destruct (scope_of resource_group) as [rg|];
    unfold io_bind, eprint, io_ret, io_raise; simpl; rewrite Hl, He; by eexists.
Qed.

End Runner.




(** * Further properties of the code *)

(** ** The evaluator, by required key *)

Section EvaluatorCases.

(** The three lookups that decide the outcome. *)
Lemma missing_of_cases t :
  missing_of t
  = (if decide (t !! "environment" = None) then ["environment"] else [])
    ++ (if decide (t !! "owner" = None) then ["owner"] else [])
    ++ (if decide (t !! "project" = None) then ["project"] else []).
Proof.
  unfold missing_of, REQUIRED_TAGS. rewrite !filter_cons, filter_nil.
  repeat case_decide; reflexivity.
Qed.

Lemma required_forall (P : string → Prop) :
  Forall P REQUIRED_TAGS ↔ P "environment" ∧ P "owner" ∧ P "project".
Proof. unfold REQUIRED_TAGS. rewrite !Forall_cons, Forall_nil. tauto. Qed.

Lemma audit_resource_ok resource rg :
  resource_group_of (id resource) = Ok rg →
  audit_resource resource
  = Ok {| resource_name := name resource;
          resource_type := type resource;
          resource_group := rg;
          result_location := location resource;
          result_tags := tags_or_empty (tags resource);
          missing_tags := missing_of (tags_or_empty (tags resource));
          compliant := bool_decide (len (missing_of (tags_or_empty (tags resource))) = 0);
          compliance_percentage :=
            (3 - len (missing_of (tags_or_empty (tags resource)))) * 100 / 3 |}.
Proof. intros H. rewrite audit_resource_unfold, H. reflexivity. Qed.

Lemma audit_resource_inv resource a :
  audit_resource resource = Ok a →
  ∃ rg, resource_group_of (id resource) = Ok rg
        ∧ a = {| resource_name := name resource;
                 resource_type := type resource;
                 resource_group := rg;
                 result_location := location resource;
                 result_tags := tags_or_empty (tags resource);
                 missing_tags := missing_of (tags_or_empty (tags resource));
                 compliant := bool_decide (len (missing_of (tags_or_empty (tags resource))) = 0);
                 compliance_percentage :=
                   (3 - len (missing_of (tags_or_empty (tags resource)))) * 100 / 3 |}.
Proof.
  rewrite audit_resource_unfold.
  destruct (resource_group_of (id resource)) as [rg|e]; simpl; [|discriminate].
  intros [= <-]. eauto.
Qed.

Lemma has_required_keys_missing resource :
  has_required_keys resource → missing_of (tags_or_empty (tags resource)) = [].
Proof.
  unfold has_required_keys.
  rewrite required_forall, missing_of_cases, !elem_of_dom, !tags_or_empty_lookup.
  intros ([? H1] & [? H2] & [? H3]). rewrite H1, H2, H3.
  repeat case_decide; done.
Qed.

(** A result is compliant exactly when the three keys are in the mapping. *)
Lemma audited_compliant resource a :
  audit_resource resource = Ok a →
  compliant a = true ↔ has_required_keys resource.
Proof.
  intros Ha. destruct (audit_resource_inv _ _ Ha) as (rg & _ & ->). simpl.
  unfold has_required_keys.
  rewrite required_forall, missing_of_cases, !elem_of_dom, <- !tags_or_empty_lookup.
  generalize (tags_or_empty (tags resource)); intros t.
  destruct (t !! "environment") eqn:E1, (t !! "owner") eqn:E2, (t !! "project") eqn:E3;
    repeat case_decide; try done; simpl; split;
    try done; try (intros (? & ? & ?)); try (by exfalso; eauto using is_Some_None);
    eauto using mk_is_Some.
Qed.

Lemma absent_decide_eq (t1 t2 : gmap string string) tag :
  (tag ∈ dom t1 ↔ tag ∈ dom t2) →
  (if decide (t1 !! tag = None) then [tag] else [])
  = (if decide (t2 !! tag = None) then [tag] else []).
Proof.
  rewrite !elem_of_dom. intros H.
  destruct (t1 !! tag) eqn:E1, (t2 !! tag) eqn:E2; repeat case_decide; try done;
    exfalso; [apply (is_Some_None (A:=string)), H|apply (is_Some_None (A:=string)), H];
    eauto.
Qed.

Lemma fully_tagged_db1 : fully_tagged db1.
Proof.
  split; [by eexists|]. unfold has_required_keys, REQUIRED_TAGS.
  repeat constructor; apply elem_of_dom; by eexists.
Qed.

End EvaluatorCases.

(** X1: a resource whose identifier yields a group and whose mapping has the
    keys environment, owner and project, whatever their values, is audited
    without error as compliant, at 100 percent, with no missing tag. *)
Theorem fully_tagged_is_compliant (resource : Resource) :
  fully_tagged resource →
  ∃ a, audit_resource resource = Ok a
       ∧ compliant a = true
       ∧ compliance_percentage a = 100
       ∧ missing_tags a = [].
Proof.
  intros [[rg Hrg] Htags].
  rewrite (audit_resource_ok _ _ Hrg), (has_required_keys_missing _ Htags).
  eexists. split; [reflexivity|]. simpl. done.
Qed.

(** X1 at [db1]. *)
Lemma fully_tagged_is_compliant_witness :
  ∃ a, audit_resource db1 = Ok a
       ∧ compliant a = true
       ∧ compliance_percentage a = 100
       ∧ missing_tags a = [].
Proof. apply fully_tagged_is_compliant, fully_tagged_db1. Defined.

(** X2: in a result, [compliant] is true exactly when the three required
    keys are keys of the resource's mapping, and false exactly when
    [missing_tags] is not empty. *)
Theorem compliant_iff_required_keys (resource : Resource) (a : AuditResult) :
  audit_resource resource = Ok a →
  (compliant a = true
   ↔ Forall (λ tag, tag ∈ dom (default ∅ (tags resource))) REQUIRED_TAGS)
  ∧ (compliant a = false ↔ missing_tags a ≠ []).
Proof.
  intros Ha. split; [apply (audited_compliant _ _ Ha)|].
  destruct (audit_resource_inv _ _ Ha) as (rg & _ & ->). simpl.
  destruct (missing_of (tags_or_empty (tags resource))); simpl; split; done.
Qed.

(** X2 at [vm1], which has one of the three keys. *)
Lemma compliant_iff_required_keys_witness :
  (compliant audited_vm1 = true
   ↔ Forall (λ tag, tag ∈ dom (default ∅ (tags vm1))) REQUIRED_TAGS)
  ∧ (compliant audited_vm1 = false ↔ missing_tags audited_vm1 ≠ []).
Proof. apply (compliant_iff_required_keys vm1). vm_compute. reflexivity. Defined.

(** X3: a resource whose mapping has none of the three required keys (it
    may have other keys, or no mapping at all) gets all three names as
    [missing_tags], in order, is not compliant and is rated 0. *)
Theorem no_required_key_misses_all (resource : Resource) (a : AuditResult) :
  Forall (λ tag, tag ∉ dom (default ∅ (tags resource))) REQUIRED_TAGS →
  audit_resource resource = Ok a →
  missing_tags a = ["environment"; "owner"; "project"]
  ∧ compliant a = false
  ∧ compliance_percentage a = 0.
Proof.
  intros Hnone Ha. destruct (audit_resource_inv _ _ Ha) as (rg & _ & ->). simpl.
  revert Hnone. rewrite required_forall, missing_of_cases, !not_elem_of_dom,
    <- !tags_or_empty_lookup.
  intros (-> & -> & ->). repeat case_decide; done.
Qed.

(** X3 at [plain_id_resource], whose only key is [Owner]. *)
Lemma no_required_key_misses_all_witness :
  missing_tags audited_plain = ["environment"; "owner"; "project"]
  ∧ compliant audited_plain = false
  ∧ compliance_percentage audited_plain = 0.
Proof.
  apply (no_required_key_misses_all plain_id_resource); [|vm_compute; reflexivity].
  unfold REQUIRED_TAGS. simpl. repeat constructor; by apply not_elem_of_dom.
Defined.

(** X4: two resources whose mappings hold the same required keys get the
    same [missing_tags], [compliant] and [compliance_percentage]: tag values
    and tags that are not required play no part. *)
Theorem compliance_ignores_other_tags (r1 r2 : Resource) (a1 a2 : AuditResult) :
  (∀ tag, tag ∈ REQUIRED_TAGS →
          (tag ∈ dom (default ∅ (tags r1)) ↔ tag ∈ dom (default ∅ (tags r2)))) →
  audit_resource r1 = Ok a1 →
  audit_resource r2 = Ok a2 →
  missing_tags a1 = missing_tags a2
  ∧ compliant a1 = compliant a2
  ∧ compliance_percentage a1 = compliance_percentage a2.
Proof.
  intros Hsame H1 H2.
  destruct (audit_resource_inv _ _ H1) as (rg1 & _ & ->).
  destruct (audit_resource_inv _ _ H2) as (rg2 & _ & ->). simpl.
  assert (Hm : missing_of (tags_or_empty (tags r1)) = missing_of (tags_or_empty (tags r2))).
  { rewrite !missing_of_cases.
    rewrite (absent_decide_eq _ (tags_or_empty (tags r2)) "environment"),
            (absent_decide_eq _ (tags_or_empty (tags r2)) "owner"),
            (absent_decide_eq _ (tags_or_empty (tags r2)) "project"); [done|..];
      rewrite !elem_of_dom, !tags_or_empty_lookup, <- !elem_of_dom;
      apply Hsame; unfold REQUIRED_TAGS; repeat constructor. }
  by rewrite Hm.
Qed.

(** X4 at [vm1] and [vm_other_tags]: both have [environment] only. *)
Lemma compliance_ignores_other_tags_witness :
  missing_tags audited_vm1 = missing_tags audited_vm_other_tags
  ∧ compliant audited_vm1 = compliant audited_vm_other_tags
  ∧ compliance_percentage audited_vm1 = compliance_percentage audited_vm_other_tags.
Proof.
  apply (compliance_ignores_other_tags vm1 vm_other_tags);
    [|vm_compute; reflexivity|vm_compute; reflexivity].
  intros tag. unfold REQUIRED_TAGS. rewrite !elem_of_cons, elem_of_nil.
  intros [->|[->|[->|[]]]]; rewrite !elem_of_dom; vm_compute;
    split; intros [x Hx]; try discriminate; eauto.
Defined.

(** ** The identifier and its segments *)

Section Splitting.

(** One more segment than separators. *)
Lemma str_split_length c s : length (str_split c s) = S (count_char c s).
Proof.
  induction s as [|a s IH]; simpl; [done|].
  destruct (Ascii.eqb a c); simpl; [by rewrite IH|].
  destruct (str_split c s) eqn:E; simpl in *; [done|lia].
Qed.

Lemma str_contains_count c s : str_contains c s = true ↔ (1 ≤ count_char c s)%nat.
Proof.
  induction s as [|a s IH]; simpl; [split; [done|lia]|].
  destruct (Ascii.eqb a c); [split; [lia|done]|done].
Qed.

(** No segment holds the separator. *)
Lemma str_split_segments c s : Forall (λ seg, str_contains c seg = false) (str_split c s).
Proof.
  induction s as [|a s IH]; simpl; [by repeat constructor|].
  destruct (Ascii.eqb a c) eqn:E; [by constructor|].
  destruct (str_split c s) as [|seg segs]; [by repeat constructor; simpl; rewrite E|].
  inversion_clear IH. constructor; [simpl; by rewrite E|done].
Qed.

(** Splitting a text whose first separator comes after [s1]. *)
Lemma str_split_app c s1 s2 :
  str_contains c s1 = false →
  str_split c (s1 +:+ String c s2) = s1 :: str_split c s2.
Proof.
  induction s1 as [|a s1 IH]; simpl.
  - intros _. by rewrite Ascii.eqb_refl.
  - destruct (Ascii.eqb a c); [done|]. intros H. by rewrite (IH H).
Qed.

(** One, two or three slashes: the lookup of the fifth segment raises. *)
Lemma resource_group_of_few_slashes rid :
  (1 ≤ count_char slash rid ≤ 3)%nat → resource_group_of rid = Raise IndexError.
Proof.
  intros [H1 H3]. apply resource_group_of_short.
  - by apply str_contains_count.
  - rewrite str_split_length. lia.
Qed.

End Splitting.

(** X5: when the first five slash-separated segments of an identifier are
    [s0] to [s3] and [g], the group is [g], whether or not more segments
    follow. *)
Theorem resource_group_of_fifth_segment (s0 s1 s2 s3 g rest : string) :
  Forall (λ s, str_contains slash s = false) [s0; s1; s2; s3; g] →
  resource_group_of (s0 +:+ "/" +:+ s1 +:+ "/" +:+ s2 +:+ "/" +:+ s3 +:+ "/" +:+ g) = Ok g
  ∧ resource_group_of
      (s0 +:+ "/" +:+ s1 +:+ "/" +:+ s2 +:+ "/" +:+ s3 +:+ "/" +:+ g +:+ "/" +:+ rest)
    = Ok g.
Proof.
  rewrite !Forall_cons. intros (H0 & H1 & H2 & H3 & Hg & _).
  split; apply resource_group_of_fifth; change (String.append "/") with (String slash);
    rewrite !str_split_app by done.
  - by rewrite (str_split_no_separator _ _ Hg).
  - done.
Qed.

(** X5 at an Azure identifier, with and without a provider path. *)
Lemma resource_group_of_fifth_segment_witness :
  resource_group_of "/subscriptions/s1/resourceGroups/rg1" = Ok "rg1"
  ∧ resource_group_of "/subscriptions/s1/resourceGroups/rg1/providers/Microsoft.Sql/servers/db1"
    = Ok "rg1".
Proof.
  apply (resource_group_of_fifth_segment EmptyString "subscriptions" "s1" "resourceGroups"
           "rg1" "providers/Microsoft.Sql/servers/db1").
  repeat constructor.
Defined.

(** X6: the group extraction raises exactly on the identifiers that hold
    one, two or three slashes, and [IndexError] is the only exception it
    raises. *)
Theorem resource_group_of_raises_iff (rid : string) :
  (resource_group_of rid = Raise IndexError ↔ (1 ≤ count_char slash rid ≤ 3)%nat)
  ∧ ∀ e, resource_group_of rid = Raise e → e = IndexError.
Proof.
  unfold resource_group_of, index.
  pose proof (str_split_length slash rid) as Hlen.
  pose proof (str_contains_count slash rid) as Hc.
  destruct (str_contains slash rid).
  - destruct (str_split slash rid !! 4%nat) eqn:E.
    + apply lookup_lt_Some in E. split; [split; [done|lia]|done].
    + apply lookup_ge_None in E. split; [split; [intros _; split; [by apply Hc|lia]|done]|].
      by intros e [= <-].
  - split; [split; [done|]|done]. intros [H _]. apply Hc in H. done.
Qed.

(** X7: a group that is returned never holds a slash; it is the default
    [unknown] when the identifier has no slash and the fifth segment
    otherwise. *)
Theorem resource_group_of_returns (rid g : string) :
  resource_group_of rid = Ok g →
  str_contains slash g = false
  ∧ (str_contains slash rid = false → g = "unknown")
  ∧ (str_contains slash rid = true → str_split slash rid !! 4%nat = Some g).
Proof.
  unfold resource_group_of, index.
  destruct (str_contains slash rid).
  - destruct (str_split slash rid !! 4%nat) as [seg|] eqn:E; [|done].
    intros [= <-]. split; [|done].
    pose proof (str_split_segments slash rid) as Hall.
    rewrite Forall_lookup in Hall. by apply (Hall _ _ E).
  - by intros [= <-].
Qed.

(** X7 at the identifier of [vm1]. *)
Lemma resource_group_of_returns_witness :
  str_contains slash "rg1" = false
  ∧ (str_contains slash (id vm1) = false → "rg1" = "unknown")
  ∧ (str_contains slash (id vm1) = true → str_split slash (id vm1) !! 4%nat = Some "rg1").
Proof. apply (resource_group_of_returns (id vm1)). reflexivity. Defined.

(** ** The loop of [run_audit] *)

Section Loop.

Lemma audit_resource_raises resource e :
  audit_resource resource = Raise e → e = IndexError.
Proof.
  rewrite audit_resource_unfold.
  destruct (resource_group_of (id resource)) as [rg|e'] eqn:E; simpl; [done|].
  intros [= <-]. unfold resource_group_of, index in E.
  destruct (str_contains slash (id resource)); [|done].
  destruct (str_split slash (id resource) !! 4%nat); [done|]. by injection E.
Qed.

Lemma audit_all_ok resources : ∀ results acc,
  Forall2 (λ r a, audit_resource r = Ok a) resources results →
  audit_all resources acc = Ok (acc ++ results).
Proof.
  induction resources as [|r rest IH]; intros results acc H; inversion H; subst; simpl.
  - by rewrite app_nil_r.
  - match goal with Hr : audit_resource r = Ok _ |- _ => rewrite Hr end. simpl.
    erewrite IH by eassumption. by rewrite <- app_assoc.
Qed.

Lemma audit_all_total resources :
  Forall has_group resources →
  ∃ results, Forall2 (λ r a, audit_resource r = Ok a) resources results.
Proof.
  induction 1 as [|r rest [rg Hrg] _ [results IH]]; [by exists []|].
  eexists (_ :: results). constructor; [by apply audit_resource_ok|done].
Qed.

Lemma audit_all_raises resources : ∀ acc,
  Exists (λ r, resource_group_of (id r) = Raise IndexError) resources →
  audit_all resources acc = Raise IndexError.
Proof.
  induction resources as [|r rest IH]; intros acc H; [by inversion H|]. simpl.
  destruct (audit_resource r) as [a|e] eqn:E; simpl.
  - inversion H as [? ? Hr|? ? Hrest]; subst; [|by apply IH].
    rewrite audit_resource_unfold, Hr in E. done.
  - by rewrite (audit_resource_raises _ _ E).
Qed.

(** After a successful listing of at least one resource, the run is the
    loop over the listing. *)
Lemma run_audit_listed client resource_group resources err :
  probe client = Ok tt →
  listing client resource_group = Ok resources →
  resources ≠ [] →
  ∃ scan,
    run_audit client resource_group err
    = (audit_all resources [],
       err ++ ["Authentication successful."; scan;
               "Found " +:+ str_int (len resources) +:+ " resources to audit."]).
Proof.
  intros Hp Hl Hne. unfold run_audit, io_bind.
  rewrite (authenticate_success _ _ Hp). simpl.
  unfold listing, get_resources in *.
  destruct (scope_of resource_group) as [rg|];
    unfold io_bind, eprint, io_ret; simpl; rewrite Hl; simpl;
    (destruct resources as [|r rest]; [done|]); rewrite <- !app_assoc; by eexists.
Qed.

(** The three ways in which a run ends with no result. *)
Lemma run_audit_no_results client resource_group err :
  (∃ e, probe client = Raise e ∧ is_Exception e = true)
  ∨ (probe client = Ok tt
     ∧ ((∃ e, listing client resource_group = Raise e ∧ is_AzureError e = true)
        ∨ listing client resource_group = Ok [])) →
  ∃ diagnostics, run_audit client resource_group err = (Ok [], err ++ diagnostics).
Proof.
  intros [(e & Hp & He)|(Hp & [(e & Hl & He)|Hl])]; unfold run_audit, io_bind.
  - destruct (authenticate_failure client e err Hp He) as [line ->]. simpl.
    unfold eprint, io_ret. rewrite <- app_assoc. by eexists.
  - rewrite (authenticate_success _ _ Hp). simpl.
    destruct (get_resources_failure client resource_group e
                (err ++ ["Authentication successful."]) Hl He) as [scan ->].
    simpl. unfold eprint, io_ret. rewrite <- !app_assoc. by eexists.
  - rewrite (authenticate_success _ _ Hp). simpl.
    unfold listing, get_resources in *.
    destruct (scope_of resource_group) as [rg|];
      unfold io_bind, eprint, io_ret; simpl; rewrite Hl; simpl;
      rewrite <- !app_assoc; by eexists.
Qed.

End Loop.



(** X9: when the listing holds a resource whose identifier has one, two or
    three slashes, [run_audit] raises [IndexError]: the results of the
    other resources are lost with it. *)
Theorem run_audit_malformed_id_aborts (client : AzureClient)
    (resource_group : option string) (resources : list Resource) (err : list string) :
  probe client = Ok tt →
  listing client resource_group = Ok resources →
  Exists (λ r, (1 ≤ count_char slash (id r) ≤ 3)%nat) resources →
  ∃ err', run_audit client resource_group err = (Raise IndexError, err').
Proof.
  intros Hp Hl Hbad.
  assert (Hne : resources ≠ []) by (intros ->; inversion Hbad).
  destruct (run_audit_listed client resource_group resources err Hp Hl Hne) as [scan ->].
  rewrite audit_all_raises; [by eexists|].
  eapply Exists_impl; [exact Hbad|]. intros r Hr. simpl in Hr.
  by apply resource_group_of_few_slashes.
Qed.

(** X9 at a listing of [vm1] followed by a resource with a short
    identifier. *)
Lemma run_audit_malformed_id_aborts_witness :
  ∃ err', run_audit short_id_client None [] = (Raise IndexError, err').
Proof.
  apply (run_audit_malformed_id_aborts short_id_client None [vm1; short_id_resource]);
    [reflexivity|reflexivity|].
  apply Exists_cons_tl, Exists_cons_hd. simpl. lia.
Defined.

(** X10: when authentication succeeds and the listing is empty, [run_audit]
    returns the empty list, as it does after a failure, and its last two
    lines on the error stream are the count of zero and the notice that
    nothing was found. *)
Theorem run_audit_empty_listing (client : AzureClient)
    (resource_group : option string) (err : list string) :
  probe client = Ok tt →
  listing client resource_group = Ok [] →
  ∃ scan,
    run_audit client resource_group err
    = (Ok [],
       err ++ ["Authentication successful."; scan;
               "Found 0 resources to audit."; "No resources found to audit."]).
Proof.
  intros Hp Hl. unfold run_audit, io_bind.
  rewrite (authenticate_success _ _ Hp). simpl.
  unfold listing, get_resources in *.
  destruct (scope_of resource_group) as [rg|];
    unfold io_bind, eprint, io_ret; simpl; rewrite Hl; simpl;
    rewrite <- !app_assoc; by eexists.
Qed.

(** X10 at a client with nothing to list. *)
Lemma run_audit_empty_listing_witness :
  ∃ scan,
    run_audit empty_client (Some "rg-empty") []
    = (Ok [],
       [] ++ ["Authentication successful."; scan;
              "Found 0 resources to audit."; "No resources found to audit."]).
Proof. apply (run_audit_empty_listing empty_client (Some "rg-empty")); reflexivity. Defined.

(** X11: an empty resource group name is no scope: the run is that of the
    whole subscription.  With a non-empty name the run depends on the client
    only through the authentication probe and the listing of that group. *)
Theorem run_audit_scope_selection (c1 c2 : AzureClient) (rg : string) (err : list string) :
  run_audit c1 (Some EmptyString) err = run_audit c1 None err
  ∧ (rg ≠ EmptyString →
     probe c1 = probe c2 →
     list_by_resource_group c1 rg = list_by_resource_group c2 rg →
     run_audit c1 (Some rg) err = run_audit c2 (Some rg) err).
Proof.
  split; [reflexivity|]. intros Hrg Hp Hl.
  destruct rg as [|a rg]; [done|].
  unfold run_audit, authenticate, get_resources, scope_of. rewrite Hp, Hl. reflexivity.
Qed.

(** ** Counts and rate of [generate_summary] *)

Section SummaryFacts.

(** [n / n] is the float one. *)
Lemma int_truediv_self n : 0 < n → int_truediv n n = Ok 1%float.
Proof.
  intros Hn. unfold int_truediv.
  destruct (Z.eqb_spec n 0) as [|_]; [lia|].
  destruct n as [|p|p]; try lia. simpl.
  unfold SFdiv_core_binary.
  replace (Zdigits2 (Z.pos p) + 0 - (Zdigits2 (Z.pos p) + 0)) with 0 by lia.
  change (Z.min (fexp prec emax 0) (0 - 0)) with (-53).
  change (0 - 0 - -53) with 53.
  cbv beta iota.
  assert (Hq : Z.div_eucl (Z.shiftl (Z.pos p) 53) (Z.pos p) = (2 ^ 53, 0)).
  { rewrite Z.shiftl_mul_pow2 by lia. generalize (2 ^ 53). intros k.
    pose proof (Z_div_mod (Z.pos p * k) (Z.pos p) ltac:(lia)) as Hdm.
    destruct (Z.div_eucl (Z.pos p * k) (Z.pos p)) as [q r]. destruct Hdm as [Hq Hr].
    assert (q = k) by nia. subst q. f_equal. lia. }
  rewrite Hq.
  assert (Hloc : new_location (Z.pos p) 0 = loc_Exact).
  { unfold new_location. by destruct (Z.even (Z.pos p)). }
  rewrite Hloc. vm_compute. reflexivity.
Qed.

Lemma int_truediv_zero n : 0 < n → int_truediv 0 n = Ok 0%float.
Proof.
  intros Hn. unfold int_truediv.
  destruct (Z.eqb_spec n 0) as [|_]; [lia|].
  destruct n as [|p|p]; try lia. reflexivity.
Qed.

Lemma rate_of_all n : 0 < n → rate_of n n = Ok (Float 100).
Proof.
  intros Hn. unfold rate_of.
  rewrite (proj2 (Z.ltb_lt 0 n) Hn), (int_truediv_self n Hn). vm_compute. reflexivity.
Qed.

Lemma rate_of_none n : 0 < n → rate_of 0 n = Ok (Float 0).
Proof.
  intros Hn. unfold rate_of.
  rewrite (proj2 (Z.ltb_lt 0 n) Hn), (int_truediv_zero n Hn). vm_compute. reflexivity.
Qed.

Lemma count_compliant_all l :
  Forall (λ r, compliant r = true) l → count_compliant l = len l.
Proof.
  intros H. unfold count_compliant. f_equal.
  induction H as [|r l Hr _ IH]; [done|]. rewrite filter_cons, decide_True by done.
  by rewrite IH.
Qed.

Lemma count_compliant_none l :
  Forall (λ r, compliant r = false) l → count_compliant l = 0.
Proof.
  intros H. unfold count_compliant, len.
  induction H as [|r l Hr _ IH]; [done|]. rewrite filter_cons, decide_False; [done|].
  by rewrite Hr.
Qed.

Lemma count_compliant_full l :
  count_compliant l = len l ↔ Forall (λ r, compliant r = true) l.
Proof.
  split; [|apply count_compliant_all].
  unfold count_compliant, len. intros H. apply Nat2Z.inj in H.
  induction l as [|r l IH]; [constructor|].
  rewrite filter_cons in H. pose proof (length_filter (λ r, compliant r = true) l) as Hle.
  case_decide as Hr; simpl in H; [|lia].
  constructor; [done|]. apply IH. lia.
Qed.

Lemma count_compliant_app l1 l2 :
  count_compliant (l1 ++ l2) = count_compliant l1 + count_compliant l2.
Proof. unfold count_compliant, len. rewrite filter_app, length_app. lia. Qed.

Lemma len_app {A} (l1 l2 : list A) : len (l1 ++ l2) = len l1 + len l2.
Proof. unfold len. rewrite length_app. lia. Qed.

Lemma len_replicate {A} n (x : A) : len (replicate n x) = Z.of_nat n.
Proof. unfold len. by rewrite length_replicate. Qed.

Lemma len_pos {A} (l : list A) : l ≠ [] → 0 < len l.
Proof. destruct l; [done|]. unfold len. simpl. lia. Qed.

(** The compliant results of a run are those of the resources that have
    the three keys. *)
Lemma count_compliant_audited resources : ∀ results,
  Forall2 (λ r a, audit_resource r = Ok a) resources results →
  count_compliant results = len (filter has_required_keys resources)
  ∧ len results = len resources.
Proof.
  unfold count_compliant, len.
  induction resources as [|r rest IH]; intros results H; inversion H as [|? a ? new Ha Hrest];
    subst; [done|].
  destruct (IH _ Hrest) as [IH1 IH2]. rewrite !filter_cons.
  pose proof (audited_compliant _ _ Ha) as Hc.
  split; [|simpl; lia].
  repeat case_decide; simpl; try lia; tauto.
Qed.

End SummaryFacts.

(** X12: the counts of a summary are consistent: compliant and
    non-compliant add up to the total, neither is negative, and
    [non_compliant_resources] is zero exactly when every result is
    compliant. *)
Theorem generate_summary_counts_consistent
    (utcnow : string) (audit_results : list AuditResult) :
  ∃ summary,
    generate_summary utcnow audit_results = Ok summary
    ∧ compliant_resources summary + non_compliant_resources summary = total_resources summary
    ∧ 0 ≤ compliant_resources summary ≤ total_resources summary
    ∧ 0 ≤ non_compliant_resources summary ≤ total_resources summary
    ∧ (non_compliant_resources summary = 0 ↔ Forall (λ r, compliant r = true) audit_results).
Proof.
  rewrite generate_summary_unfold.
  pose proof (count_compliant_range audit_results) as Hr.
  destruct (rate_of_total _ _ Hr) as [rate ->]. simpl.
  eexists. split; [reflexivity|]. simpl.
  rewrite <- count_compliant_full. repeat split; lia.
Qed.

(** X13: when there is at least one result and every result is compliant,
    the rate is the float 100.0 exactly, however many results there are. *)
Theorem generate_summary_all_compliant (utcnow : string) (audit_results : list AuditResult) :
  audit_results ≠ [] →
  Forall (λ r, compliant r = true) audit_results →
  ∃ summary,
    generate_summary utcnow audit_results = Ok summary
    ∧ compliance_rate summary = Float 100
    ∧ non_compliant_resources summary = 0.
Proof.
  intros Hne Hall. rewrite generate_summary_unfold, (count_compliant_all _ Hall).
  rewrite (rate_of_all _ (len_pos _ Hne)). simpl.
  eexists. split; [reflexivity|]. simpl. split; [done|lia].
Qed.

(** X13 at three compliant results. *)
Lemma generate_summary_all_compliant_witness :
  ∃ summary,
    generate_summary "2024-01-01T00:00:00" [audited_db1; audited_db1; audited_db1] = Ok summary
    ∧ compliance_rate summary = Float 100
    ∧ non_compliant_resources summary = 0.
Proof. apply generate_summary_all_compliant; [done|repeat constructor]. Defined.

(** X14: when there is at least one result and none is compliant, the rate
    is the float 0.0, not the integer 0 of the empty case. *)
Theorem generate_summary_none_compliant (utcnow : string) (audit_results : list AuditResult) :
  audit_results ≠ [] →
  Forall (λ r, compliant r = false) audit_results →
  ∃ summary,
    generate_summary utcnow audit_results = Ok summary
    ∧ compliance_rate summary = Float 0
    ∧ compliant_resources summary = 0.
Proof.
  intros Hne Hall. rewrite generate_summary_unfold, (count_compliant_none _ Hall).
  rewrite (rate_of_none _ (len_pos _ Hne)). simpl.
  eexists. split; [reflexivity|]. simpl. done.
Qed.

(** X14 at two results that lack tags. *)
Lemma generate_summary_none_compliant_witness :
  ∃ summary,
    generate_summary "2024-01-01T00:00:00" [audited_vm1; audited_vm1] = Ok summary
    ∧ compliance_rate summary = Float 0
    ∧ compliant_resources summary = 0.
Proof. apply generate_summary_none_compliant; [done|repeat constructor]. Defined.

(** X15: the summary of the results of a run counts the resources: the
    total is the number of resources listed and [compliant_resources] is the
    number of those whose mapping has the three required keys. *)
Theorem summary_counts_fully_tagged (utcnow : string)
    (resources : list Resource) (results : list AuditResult) :
  Forall2 (λ r a, audit_resource r = Ok a) resources results →
  ∃ summary,
    generate_summary utcnow results = Ok summary
    ∧ total_resources summary = len resources
    ∧ compliant_resources summary
      = len (filter (λ r, Forall (λ tag, tag ∈ dom (default ∅ (tags r))) REQUIRED_TAGS)
               resources).
Proof.
  intros H. destruct (count_compliant_audited _ _ H) as [Hc Hl].
  rewrite generate_summary_unfold.
  destruct (rate_of_total _ _ (count_compliant_range results)) as [rate ->]. simpl.
  eexists. split; [reflexivity|]. simpl. by rewrite Hc, Hl.
Qed.

(** X15 at [vm1] and its result. *)
Lemma summary_counts_fully_tagged_witness :
  ∃ summary,
    generate_summary "2024-01-01T00:00:00" [audited_vm1] = Ok summary
    ∧ total_resources summary = len [vm1]
    ∧ compliant_resources summary
      = len (filter (λ r, Forall (λ tag, tag ∈ dom (default ∅ (tags r))) REQUIRED_TAGS)
               [vm1]).
Proof.
  apply (summary_counts_fully_tagged _ [vm1] [audited_vm1]).
  repeat constructor.
Defined.

(** ** The text report: [output_text] *)

Section TextLayout.

Lemma text_block_app result out : text_block result out = out ++ text_block result [].
Proof. unfold text_block, print. rewrite <- !app_assoc. reflexivity. Qed.

(** The loop of the detail section writes the blocks of the non-compliant
    results, in order. *)
Lemma foldl_text_blocks l : ∀ out,
  foldl (λ out result, if compliant result then out else text_block result out) out l
  = out ++ text_blocks l.
Proof.
  unfold text_blocks.
  induction l as [|r l IH]; intros out; simpl; [by rewrite app_nil_r|].
  rewrite IH, filter_cons. destruct (compliant r) eqn:E.
  - by rewrite decide_False by done.
  - rewrite decide_True by done. simpl.
    by rewrite (text_block_app r out), <- app_assoc.
Qed.

Lemma append_assoc (a b c : string) : (a +:+ b) +:+ c = a +:+ (b +:+ c).
Proof.
  induction a as [|x a IH]; [done|].
  change (String x ((a +:+ b) +:+ c) = String x (a +:+ (b +:+ c))). by rewrite IH.
Qed.

Lemma written_app l1 l2 : written (l1 ++ l2) = written l1 +:+ written l2.
Proof.
  unfold written. induction l1 as [|s l1 IH]; simpl; [done|].
  by rewrite IH, append_assoc.
Qed.

Lemma unlines_app l1 l2 : unlines (l1 ++ l2) = unlines l1 +:+ unlines l2.
Proof. unfold unlines. by rewrite fmap_app, written_app. Qed.

(** The five [print] calls for one result write six lines. *)
Lemma written_text_block result :
  written (text_block result []) = unlines (block_lines result).
Proof.
  unfold text_block, print, block_lines, unlines, written. simpl.
  by rewrite !append_assoc.
Qed.

Lemma written_text_blocks l :
  written (text_blocks l)
  = unlines (mjoin (block_lines <$> filter (λ r, compliant r = false) l)).
Proof.
  unfold text_blocks.
  induction (filter (λ r, compliant r = false) l) as [|r rs IH]; [done|].
  rewrite !fmap_cons.
  change (written (text_block r [] ++ mjoin ((λ r, text_block r []) <$> rs))
          = unlines (block_lines r ++ mjoin (block_lines <$> rs))).
  by rewrite written_app, unlines_app, IH, written_text_block.
Qed.

(** A [print] call writes one line, or two when its text starts with a
    line break. *)
Lemma written_line x cs ls :
  written cs = unlines ls → written ((x +:+ newline) :: cs) = unlines (x :: ls).
Proof. intros H. unfold unlines in *. simpl. by rewrite H. Qed.

Lemma written_break x cs ls :
  written cs = unlines ls →
  written (((newline +:+ x) +:+ newline) :: cs) = unlines (EmptyString :: x :: ls).
Proof. intros H. unfold unlines in *. simpl. rewrite H. by rewrite !append_assoc. Qed.

Lemma written_segments cs1 cs2 ls1 ls2 :
  written cs1 = unlines ls1 → written cs2 = unlines ls2 →
  written (cs1 ++ cs2) = unlines (ls1 ++ ls2).
Proof. intros H1 H2. by rewrite written_app, unlines_app, H1, H2. Qed.

(** The text that [output_text] writes, line by line. *)
Lemma output_text_written float_repr audit_results summary stdout :
  written (output_text float_repr audit_results summary stdout)
  = written stdout +:+ unlines (report_lines float_repr audit_results summary).
Proof.
  unfold output_text, print, report_lines.
  destruct (0 <? non_compliant_resources summary).
  - rewrite foldl_text_blocks, <- !app_assoc, written_app.
    apply (f_equal (String.append (written stdout))).
    do 13 (first [apply written_line | apply written_break]).
    apply written_segments; [apply written_text_blocks|].
    do 3 (first [apply written_line | apply written_break]). reflexivity.
  - rewrite <- !app_assoc, written_app.
    apply (f_equal (String.append (written stdout))).
    do 14 (first [apply written_line | apply written_break]). reflexivity.
Qed.

Lemma str_contains_app c a b :
  str_contains c (a +:+ b) = str_contains c a || str_contains c b.
Proof.
  induction a as [|x a IH]; [done|].
  change (String x a +:+ b) with (String x (a +:+ b)). simpl.
  destruct (Ascii.eqb x c); [done|apply IH].
Qed.

Lemma single_line_app a b : single_line a → single_line b → single_line (a +:+ b).
Proof. unfold single_line. intros Ha Hb. by rewrite str_contains_app, Ha, Hb. Qed.

Lemma single_line_repeat c n : single_line c → single_line (str_repeat c n).
Proof.
  intros Hc. induction n as [|n IH]; simpl; [done|]. by apply single_line_app.
Qed.

Lemma single_line_join sep l :
  single_line sep → Forall single_line l → single_line (str_join sep l).
Proof.
  intros Hs Hl. induction Hl as [|s l Hx Hl IH]; simpl; [done|].
  destruct l as [|s' l']; [done|]. by repeat apply single_line_app.
Qed.

(** The decimal text of a number is made of digits. *)
Lemma single_line_pretty_N_go x : ∀ s, single_line s → single_line (pretty_N_go x s).
Proof.
  induction (N.lt_wf_0 x) as [x _ IH]; intros s Hs.
  destruct (decide (0 < x)%N) as [Hx|Hx].
  - rewrite pretty_N_go_step by done. apply IH; [by apply N.div_lt|].
    unfold single_line in *. simpl. rewrite Hs.
    unfold pretty_N_char. by repeat case_match.
  - assert (x = 0%N) as -> by lia. by rewrite pretty_N_go_0.
Qed.

Lemma single_line_int z : single_line (str_int z).
Proof.
  unfold str_int, pretty, pretty_Z, pretty, pretty_positive, pretty, pretty_N.
  destruct z as [|p|p]; [done| |]; simpl.
  - by apply single_line_pretty_N_go.
  - by apply (single_line_pretty_N_go (N.pos p) EmptyString).
Qed.

Lemma length_block_lines (l : list AuditResult) :
  Z.of_nat (length (mjoin (block_lines <$> l))) = 6 * len l.
Proof.
  unfold len. induction l as [|r l IH]; [done|].
  rewrite fmap_cons.
  change (mjoin (block_lines r :: (block_lines <$> l)))
    with (block_lines r ++ mjoin (block_lines <$> l)).
  rewrite length_app. simpl length. lia.
Qed.

Lemma single_line_blocks (l : list AuditResult) :
  Forall report_fields_single_line l →
  Forall single_line (mjoin (block_lines <$> l)).
Proof.
  induction 1 as [|r l (Hn & Ht & Hg & Hm) _ IH]; [constructor|].
  rewrite fmap_cons.
  change (mjoin (block_lines r :: (block_lines <$> l)))
    with (block_lines r ++ mjoin (block_lines <$> l)).
  apply Forall_app. split; [|done].
  unfold block_lines. repeat constructor; repeat apply single_line_app;
    try done; try apply single_line_int.
  by apply single_line_join.
Qed.

Lemma len_non_compliant (l : list AuditResult) :
  len (filter (λ r, compliant r = false) l) = len l - count_compliant l.
Proof.
  unfold count_compliant, len.
  induction l as [|r l IH]; [done|].
  rewrite !filter_cons. destruct (compliant r) eqn:E.
  - rewrite decide_False, decide_True by done. simpl length. lia.
  - rewrite decide_True, decide_False by done. simpl length. lia.
Qed.

Lemma Forall_non_compliant (P : AuditResult → Prop) (l : list AuditResult) :
  Forall P l → Forall P (filter (λ r, compliant r = false) l).
Proof.
  rewrite !Forall_forall. intros H r Hr. apply H.
  by apply list_elem_of_filter in Hr as [_ Hr].
Qed.

End TextLayout.

(** X16: the text that [output_text] writes is, line by line: fourteen
    heading lines (banner, title, banner, a blank line, timestamp, required
    tags, a blank line, the summary title and its four figures, a blank
    line, banner); then, only when the summary has
    [non_compliant_resources > 0], a blank line, the title of the detail
    section, a rule, and for each non-compliant result, in the order of the
    list, a blank line and its five fields; then four closing lines (a blank
    line, banner, the final statement, banner).  Compliant results are never
    listed. *)
Theorem output_text_layout (float_repr : float → string)
    (audit_results : list AuditResult) (summary : Summary) (stdout : list string) :
  written (output_text float_repr audit_results summary stdout)
  = written stdout
    +:+ unlines
          ([str_repeat "=" 80;
            "AZURE RESOURCE TAG COMPLIANCE AUDIT REPORT";
            str_repeat "=" 80;
            EmptyString;
            "Audit Timestamp: " +:+ audit_timestamp summary;
            "Required Tags: " +:+ str_join ", " (required_tags summary);
            EmptyString;
            "Summary:";
            "  Total Resources: " +:+ str_int (total_resources summary);
            "  Compliant: " +:+ str_int (compliant_resources summary);
            "  Non-Compliant: " +:+ str_int (non_compliant_resources summary);
            "  Compliance Rate: " +:+ str_num float_repr (compliance_rate summary) +:+ "%";
            EmptyString;
            str_repeat "=" 80]
           ++ (if 0 <? non_compliant_resources summary
               then [EmptyString; "NON-COMPLIANT RESOURCES:"; str_repeat "-" 80]
                    ++ mjoin ((λ result,
                                 [EmptyString;
                                  "Resource: " +:+ resource_name result;
                                  "  Type: " +:+ resource_type result;
                                  "  Resource Group: " +:+ resource_group result;
                                  "  Missing Tags: "
                                  +:+ str_join ", " (missing_tags result);
                                  "  Compliance: "
                                  +:+ str_int (compliance_percentage result) +:+ "%"])
                                <$> filter (λ r, compliant r = false) audit_results)
               else [])
           ++ [EmptyString;
               str_repeat "=" 80;
               "Audit complete. " +:+ str_num float_repr (compliance_rate summary)
               +:+ "% compliant.";
               str_repeat "=" 80]).
Proof.
  rewrite output_text_written. unfold report_lines.
  destruct (0 <? non_compliant_resources summary); reflexivity.
Qed.

(** X17: when no text that goes into the report holds a line break (the
    float text, the timestamp, and the name, type, group and missing tags of
    each result), the text report written for the summary of the same
    results is made of exactly 18 lines when every result is compliant, and
    of 21 lines plus six per non-compliant result otherwise: the number of
    blocks is the count shown in the summary block. *)
Theorem output_text_line_count (float_repr : float → string) (utcnow : string)
    (audit_results : list AuditResult) (stdout : list string) :
  (∀ f, single_line (float_repr f)) →
  single_line utcnow →
  Forall report_fields_single_line audit_results →
  ∃ summary lines,
    generate_summary utcnow audit_results = Ok summary
    ∧ written (output_text float_repr audit_results summary stdout)
      = written stdout +:+ unlines lines
    ∧ Forall single_line lines
    ∧ Z.of_nat (length lines)
      = 18 + (if decide (non_compliant_resources summary = 0) then 0
              else 3 + 6 * non_compliant_resources summary).
Proof.
  intros Hrepr Hnow Hfields.
  rewrite generate_summary_unfold.
  pose proof (count_compliant_range audit_results) as Hr.
  destruct (rate_of_total _ _ Hr) as [rate ->]. simpl.
  eexists. eexists. split; [reflexivity|].
  split; [apply output_text_written|].
  unfold report_lines. simpl.
  assert (Hrate : single_line (str_num float_repr rate)).
  { destruct rate; [apply single_line_int|apply Hrepr]. }
  set (blocks := mjoin (block_lines <$> filter (λ r, compliant r = false) audit_results)).
  assert (Hb : Forall single_line blocks).
  { apply single_line_blocks. by apply Forall_non_compliant. }
  assert (Hlen : Z.of_nat (length blocks)
                 = 6 * (len audit_results - count_compliant audit_results)).
  { unfold blocks. by rewrite length_block_lines, len_non_compliant. }
  set (nc := len audit_results - count_compliant audit_results) in *.
  split.
  - repeat (apply Forall_cons; split;
            [repeat apply single_line_app; try done; try apply single_line_int|]).
    apply Forall_app. split.
    + destruct (0 <? nc); [|constructor].
      repeat (apply Forall_cons; split; [done|]). done.
    + repeat constructor; repeat apply single_line_app; done.
  - case_decide as Hz.
    + rewrite Hz. simpl. lia.
    + rewrite (proj2 (Z.ltb_lt 0 nc)) by (unfold nc; lia).
      simpl length. rewrite !length_app. simpl length. lia.
Qed.

(** X17 at one non-compliant and one compliant result: 27 lines. *)
Lemma output_text_line_count_witness :
  ∃ summary lines,
    generate_summary "2024-01-01T00:00:00" [audited_vm1; audited_db1] = Ok summary
    ∧ written (output_text no_repr [audited_vm1; audited_db1] summary [])
      = written [] +:+ unlines lines
    ∧ Forall single_line lines
    ∧ Z.of_nat (length lines)
      = 18 + (if decide (non_compliant_resources summary = 0) then 0
              else 3 + 6 * non_compliant_resources summary).
Proof.
  apply (output_text_line_count no_repr "2024-01-01T00:00:00"
           [audited_vm1; audited_db1] []).
  - intros f. reflexivity.
  - reflexivity.
  - repeat constructor.
Defined.

(** ** The last field of a CSV record *)

Section CsvFields.

Lemma csv_missing_field_cases t :
  let f := match missing_of t with
           | [] => "none"
           | _ :: _ => str_join ", " (missing_of t)
           end in
  Csv.field f
  = if decide (2 ≤ length (missing_of t))%nat
    then String Csv.dquote (f +:+ String Csv.dquote EmptyString)
    else f.
Proof.
  rewrite missing_of_cases. repeat case_decide; simpl in *; try lia; reflexivity.
Qed.

End CsvFields.

(** X18: in the CSV record of an audited resource the last field is written
    bare when at most one required tag is missing ([none] or the one name)
    and inside quotes when two or three are, since the joined names then
    hold a comma. *)
Theorem csv_missing_tags_quoted (resource : Resource) (a : AuditResult) :
  audit_resource resource = Ok a →
  ∃ shown,
    last (csv_row a) = Some shown
    ∧ shown = match missing_tags a with
              | [] => "none"
              | _ :: _ => str_join ", " (missing_tags a)
              end
    ∧ Csv.field shown
      = if decide (2 ≤ length (missing_tags a))%nat
        then String Csv.dquote (shown +:+ String Csv.dquote EmptyString)
        else shown.
Proof.
  intros Ha. destruct (audit_resource_inv _ _ Ha) as (rg & _ & ->). simpl.
  eexists. split; [reflexivity|]. split; [reflexivity|].
  apply csv_missing_field_cases.
Qed.

(** X18 at [vm1], which lacks two tags. *)
Lemma csv_missing_tags_quoted_witness :
  ∃ shown,
    last (csv_row audited_vm1) = Some shown
    ∧ shown = match missing_tags audited_vm1 with
              | [] => "none"
              | _ :: _ => str_join ", " (missing_tags audited_vm1)
              end
    ∧ Csv.field shown
      = if decide (2 ≤ length (missing_tags audited_vm1))%nat
        then String Csv.dquote (shown +:+ String Csv.dquote EmptyString)
        else shown.
Proof. apply (csv_missing_tags_quoted vm1). vm_compute. reflexivity. Defined.

(** ** The entry point: [main] *)

Section EntryPointFacts.

Context (float_repr : float → string).
Context (output_json : list AuditResult → Summary → list string → list string).

(** A run that audits at least one resource: the exit code is read off the
    rate of the compliant results. *)
Lemma main_reports client args utcnow resources results :
  probe client = Ok tt →
  listing client (arg_resource_group args) = Ok resources →
  resources ≠ [] →
  Forall2 (λ r a, audit_resource r = Ok a) resources results →
  ∃ rate stdout err,
    rate_of (count_compliant results) (len results) = Ok rate
    ∧ main float_repr output_json client args utcnow
      = (if below_100 rate then Exit 1 else Exit 0, stdout, err).
Proof.
  intros Hp Hl Hne Hall. unfold main.
  destruct (run_audit_listed client _ resources [] Hp Hl Hne) as [scan ->].
  rewrite (audit_all_ok _ _ [] Hall). simpl.
  destruct results as [|a results]; [by inversion Hall; subst|].
  rewrite generate_summary_unfold.
  destruct (rate_of_total _ _ (count_compliant_range (a :: results))) as [rate Hrate].
  rewrite Hrate. simpl. by exists rate; do 2 eexists.
Qed.

Lemma fully_tagged_results resources results :
  Forall2 (λ r a, audit_resource r = Ok a) resources results →
  Forall has_required_keys resources →
  Forall (λ a, compliant a = true) results.
Proof.
  induction 1 as [|r a rest results Ha _ IH]; [constructor|].
  intros Hfull. inversion Hfull as [|? ? Hr Hrest]; subst.
  constructor; [|by apply IH]. by apply (audited_compliant _ _ Ha).
Qed.

Lemma not_tagged_results resources results :
  Forall2 (λ r a, audit_resource r = Ok a) resources results →
  Forall (λ r, ¬ has_required_keys r) resources →
  Forall (λ a, compliant a = false) results.
Proof.
  induction 1 as [|r a rest results Ha _ IH]; [constructor|].
  intros Hnone. inversion Hnone as [|? ? Hr Hrest]; subst.
  constructor; [|by apply IH].
  apply not_true_is_false. intros Hc. by apply Hr, (audited_compliant _ _ Ha).
Qed.

Lemma rate_of_19999 : rate_of 19999 20000 = Ok (Float 100).
Proof. vm_compute. reflexivity. Qed.

End EntryPointFacts.

(** X19: when authentication fails, when the listing raises an
    [AzureError], or when the listing is empty, [main] exits with code 1,
    writes nothing to the standard output, and its last line on the error
    stream is the notice that the audit failed or found nothing. *)
Theorem main_no_results_exits_1 (float_repr : float → string)
    (output_json : list AuditResult → Summary → list string → list string)
    (client : AzureClient) (args : Args) (utcnow : string) :
  (∃ e, probe client = Raise e ∧ is_Exception e = true)
  ∨ (probe client = Ok tt
     ∧ ((∃ e, listing client (arg_resource_group args) = Raise e ∧ is_AzureError e = true)
        ∨ listing client (arg_resource_group args) = Ok [])) →
  ∃ diagnostics,
    main float_repr output_json client args utcnow
    = (Exit 1, [], diagnostics ++ ["Audit failed or no resources found."]).
Proof.
  intros H. unfold main.
  destruct (run_audit_no_results client (arg_resource_group args) [] H) as [diagnostics ->].
  by eexists.
Qed.

(** X19 at a client whose scoped listing raises an [AzureError]. *)
Lemma main_no_results_exits_1_witness :
  ∃ diagnostics,
    main no_repr no_json failing_listing_client csv_scoped_args "2024-01-01T00:00:00"
    = (Exit 1, [], diagnostics ++ ["Audit failed or no resources found."]).
Proof.
  apply main_no_results_exits_1. right. split; [reflexivity|]. left.
  exists (AzureError "ResourceGroupNotFound"). split; reflexivity.
Defined.

(** X20: when authentication succeeds and the listing returns at least one
    resource, each with an identifier that yields a group and with the three
    required keys, [main] exits with code 0, whatever the output format and
    the number of resources. *)
Theorem main_all_compliant_exits_0 (float_repr : float → string)
    (output_json : list AuditResult → Summary → list string → list string)
    (client : AzureClient) (args : Args) (utcnow : string) (resources : list Resource) :
  probe client = Ok tt →
  listing client (arg_resource_group args) = Ok resources →
  resources ≠ [] →
  Forall fully_tagged resources →
  ∃ stdout err, main float_repr output_json client args utcnow = (Exit 0, stdout, err).
Proof.
  intros Hp Hl Hne Hfull.
  destruct (audit_all_total resources) as [results Hall].
  { eapply Forall_impl; [exact Hfull|]. by intros r [? _]. }
  destruct (main_reports float_repr output_json client args utcnow resources results
              Hp Hl Hne Hall) as (rate & stdout & err & Hrate & ->).
  assert (Hc : Forall (λ a, compliant a = true) results).
  { eapply fully_tagged_results; [eassumption|].
    eapply Forall_impl; [exact Hfull|]. by intros r [_ ?]. }
  rewrite (count_compliant_all _ Hc), rate_of_all in Hrate.
  - injection Hrate as <-. by do 2 eexists.
  - apply len_pos. intros ->. inversion Hall; by subst.
Qed.

(** X20 at a client that lists [db1] twice. *)
Lemma main_all_compliant_exits_0_witness :
  ∃ stdout err,
    main no_repr no_json compliant_client text_args "2024-01-01T00:00:00"
    = (Exit 0, stdout, err).
Proof.
  apply (main_all_compliant_exits_0 _ _ compliant_client text_args _ [db1; db1]);
    [reflexivity|reflexivity|done|].
  repeat constructor; apply fully_tagged_db1.
Defined.

(** X21: when authentication succeeds and the listing returns at least one
    resource, each with an identifier that yields a group and none with all
    three required keys, [main] exits with code 1. *)
Theorem main_none_compliant_exits_1 (float_repr : float → string)
    (output_json : list AuditResult → Summary → list string → list string)
    (client : AzureClient) (args : Args) (utcnow : string) (resources : list Resource) :
  probe client = Ok tt →
  listing client (arg_resource_group args) = Ok resources →
  resources ≠ [] →
  Forall (λ r, (∃ rg, resource_group_of (id r) = Ok rg)
               ∧ ¬ Forall (λ tag, tag ∈ dom (default ∅ (tags r))) REQUIRED_TAGS)
    resources →
  ∃ stdout err, main float_repr output_json client args utcnow = (Exit 1, stdout, err).
Proof.
  intros Hp Hl Hne Hnone.
  destruct (audit_all_total resources) as [results Hall].
  { eapply Forall_impl; [exact Hnone|]. by intros r [? _]. }
  destruct (main_reports float_repr output_json client args utcnow resources results
              Hp Hl Hne Hall) as (rate & stdout & err & Hrate & ->).
  assert (Hc : Forall (λ a, compliant a = false) results).
  { eapply not_tagged_results; [eassumption|].
    eapply Forall_impl; [exact Hnone|]. by intros r [_ ?]. }
  rewrite (count_compliant_none _ Hc), rate_of_none in Hrate.
  - injection Hrate as <-. by do 2 eexists.
  - apply len_pos. intros ->. inversion Hall; by subst.
Qed.

(** X21 at a client that lists two resources which both lack tags. *)
Lemma main_none_compliant_exits_1_witness :
  ∃ stdout err,
    main no_repr no_json untagged_client text_args "2024-01-01T00:00:00"
    = (Exit 1, stdout, err).
Proof.
  apply (main_none_compliant_exits_1 _ _ untagged_client text_args _ [plain_id_resource; vm1]);
    [reflexivity|reflexivity|done|].
  repeat constructor; try (by eexists);
    rewrite required_forall, !elem_of_dom; intros (_ & [x Hx] & _); done.
Defined.

(** X22: when the listing holds a resource whose identifier has one, two or
    three slashes, [main] ends with an uncaught [IndexError] and has written
    no report, even if every other resource could be audited. *)
Theorem main_malformed_id_uncaught (float_repr : float → string)
    (output_json : list AuditResult → Summary → list string → list string)
    (client : AzureClient) (args : Args) (utcnow : string) (resources : list Resource) :
  probe client = Ok tt →
  listing client (arg_resource_group args) = Ok resources →
  Exists (λ r, (1 ≤ count_char slash (id r) ≤ 3)%nat) resources →
  ∃ err, main float_repr output_json client args utcnow = (Uncaught IndexError, [], err).
Proof.
  intros Hp Hl Hbad. unfold main.
  assert (Hne : resources ≠ []) by (intros ->; inversion Hbad).
  destruct (run_audit_listed client _ resources [] Hp Hl Hne) as [scan ->].
  rewrite audit_all_raises; [by eexists|].
  eapply Exists_impl; [exact Hbad|]. intros r Hr. simpl in Hr.
  by apply resource_group_of_few_slashes.
Qed.

(** X22 at a listing of [vm1] followed by a resource with a short
    identifier. *)
Lemma main_malformed_id_uncaught_witness :
  ∃ err,
    main no_repr no_json short_id_client text_args "2024-01-01T00:00:00"
    = (Uncaught IndexError, [], err).
Proof.
  apply (main_malformed_id_uncaught _ _ short_id_client text_args _ [vm1; short_id_resource]);
    [reflexivity|reflexivity|].
  apply Exists_cons_tl, Exists_cons_hd. simpl. lia.
Defined.

(** X23: exit code 0 does not mean full compliance.  With 20000 resources
    of which one lacks two tags, the rate 99.995 is rounded to 100.0 and
    [main] exits with code 0. *)
Theorem main_exit_0_with_non_compliant :
  ∃ (client : AzureClient) (args : Args) (resources : list Resource),
    probe client = Ok tt
    ∧ listing client (arg_resource_group args) = Ok resources
    ∧ len resources = 20000
    ∧ Forall (λ r, ∃ rg, resource_group_of (id r) = Ok rg) resources
    ∧ ¬ Forall fully_tagged resources
    ∧ ∀ float_repr output_json utcnow,
        ∃ stdout err, main float_repr output_json client args utcnow = (Exit 0, stdout, err).
Proof.
  exists nearly_compliant_client, text_args, nearly_compliant_resources.
  assert (Hids : Forall has_group nearly_compliant_resources).
  { apply Forall_app. split; [apply Forall_replicate|repeat constructor]; by eexists. }
  split; [done|]. split; [done|].
  split; [unfold nearly_compliant_resources; rewrite len_app, len_replicate; reflexivity|].
  split; [done|]. split.
  - unfold nearly_compliant_resources. rewrite Forall_app, Forall_singleton.
    intros [_ [_ Hvm1]]. apply required_forall in Hvm1 as (_ & Ho & _).
    apply elem_of_dom in Ho as [? Ho]. done.
  - intros float_repr output_json utcnow.
    set (results := replicate (Z.to_nat 19999) audited_db1 ++ [audited_vm1]).
    assert (Hall : Forall2 (λ r a, audit_resource r = Ok a) nearly_compliant_resources results).
    { apply Forall2_app; [apply Forall2_replicate|]; by repeat constructor. }
    destruct (main_reports float_repr output_json nearly_compliant_client text_args utcnow
                nearly_compliant_resources results) as (rate & stdout & err & Hrate & ->);
      [done|done|by destruct (Z.to_nat 19999)|done|].
    assert (Hc : count_compliant results = 19999).
    { unfold results. rewrite count_compliant_app, count_compliant_all, len_replicate.
      - reflexivity.
      - by apply Forall_replicate. }
    assert (Hl : len results = 20000).
    { unfold results. rewrite len_app, len_replicate. reflexivity. }
    rewrite Hc, Hl, rate_of_19999 in Hrate. injection Hrate as <-. by do 2 eexists.
Qed.

(** ** The value of the rounded rate

    The exit code of [main] compares the rate, rounded to two decimals, with
    100.  To show that the comparison is right below 20000 results, the
    lemmas of this part bound the value of the float quotient, of its
    product with 100 and of the decimal rounding.  The floating-point
    operations are related to their specification by the axioms of the
    standard library ([mul_spec], [Prim2SF_SF2Prim]). *)

Section FloatValue.

(** The digits of a positive number bracket it between two powers of two. *)
Lemma Zdigits2_bounds m : 0 < m → 2 ^ (Zdigits2 m - 1) ≤ m < 2 ^ Zdigits2 m.
Proof.
  intros Hm. destruct m as [|p|p]; try lia. simpl. rewrite digits2_size.
  pose proof (Pos.size_gt p) as Hgt. pose proof (Pos.size_le p) as Hle.
  assert (H1 : Z.pos p < 2 ^ Z.pos (Pos.size p)).
  { replace (2 ^ Z.pos (Pos.size p)) with (Z.pos (2 ^ Pos.size p))
      by (rewrite Pos2Z.inj_pow; done). lia. }
  assert (H2 : 2 ^ Z.pos (Pos.size p) ≤ 2 * Z.pos p).
  { replace (2 ^ Z.pos (Pos.size p)) with (Z.pos (2 ^ Pos.size p))
      by (rewrite Pos2Z.inj_pow; done).
    change (2 * Z.pos p) with (Z.pos p~0). lia. }
  split; [|done].
  replace (Z.pos (Pos.size p)) with (Z.pos (Pos.size p) - 1 + 1) in H2 by lia.
  rewrite Z.pow_add_r in H2 by lia. lia.
Qed.

(** A number of at least [2 ^ (k - 1)] has at least [k] digits. *)
Lemma Zdigits2_ge_pow m k : 0 < k → 2 ^ (k - 1) ≤ m → k ≤ Zdigits2 m.
Proof.
  intros Hk Hm.
  assert (0 < m) by (pose proof (Z.pow_pos_nonneg 2 (k - 1)); lia).
  destruct (Zdigits2_bounds m) as [_ Hlt]; [done|].
  destruct (Z_le_gt_dec k (Zdigits2 m)) as [|Hgt]; [done|exfalso].
  assert (2 ^ Zdigits2 m ≤ 2 ^ (k - 1)) by (apply Z.pow_le_mono_r; lia). lia.
Qed.

Lemma shr_1_value s : 0 ≤ shr_m s → 2 * shr_m (shr_1 s) ≤ shr_m s.
Proof.
  destruct s as [m r t]; simpl. intros Hm.
  destruct m as [|[p|p|]|p]; simpl; lia.
Qed.

Lemma iter_shr_1_value p : ∀ s,
  0 ≤ shr_m s → shr_m (SpecFloat.iter_pos shr_1 p s) * 2 ^ Z.pos p ≤ shr_m s.
Proof.
  induction p as [p IH|p IH|]; intros s Hs; simpl SpecFloat.iter_pos.
  - pose proof (shr_1_value s Hs) as V1.
    destruct (shr_1_digits s Hs) as [H1 _].
    pose proof (IH _ H1) as V2. destruct (iter_shr_1_digits p _ H1) as [H2 _].
    pose proof (IH _ H2) as V3. destruct (iter_shr_1_digits p _ H2) as [H3 _].
    assert (E : 2 ^ Z.pos p~1 = 2 * (2 ^ Z.pos p * 2 ^ Z.pos p)).
    { rewrite Pos2Z.inj_xI, Z.pow_add_r, Z.pow_twice_r by lia. lia. }
    rewrite E. assert (0 < 2 ^ Z.pos p) by (apply Z.pow_pos_nonneg; lia). nia.
  - pose proof (IH _ Hs) as V2. destruct (iter_shr_1_digits p _ Hs) as [H2 _].
    pose proof (IH _ H2) as V3. destruct (iter_shr_1_digits p _ H2) as [H3 _].
    assert (E : 2 ^ Z.pos p~0 = 2 ^ Z.pos p * 2 ^ Z.pos p).
    { by rewrite (Pos2Z.inj_xO p), Z.pow_twice_r. }
    rewrite E. assert (0 < 2 ^ Z.pos p) by (apply Z.pow_pos_nonneg; lia). nia.
  - pose proof (shr_1_value s Hs). simpl. lia.
Qed.

(** The shifted number, plus one, exceeds the number shifted. *)
Lemma shr_1_value_low s : 0 ≤ shr_m s → shr_m s ≤ 2 * shr_m (shr_1 s) + 1.
Proof.
  destruct s as [m r t]; simpl. intros Hm.
  destruct m as [|[p|p|]|p]; simpl; lia.
Qed.

Lemma iter_shr_1_value_low p : ∀ s,
  0 ≤ shr_m s → shr_m s < (shr_m (SpecFloat.iter_pos shr_1 p s) + 1) * 2 ^ Z.pos p.
Proof.
  induction p as [p IH|p IH|]; intros s Hs; simpl SpecFloat.iter_pos.
  - pose proof (shr_1_value_low s Hs) as V1.
    destruct (shr_1_digits s Hs) as [H1 _].
    pose proof (IH _ H1) as V2. destruct (iter_shr_1_digits p _ H1) as [H2 _].
    pose proof (IH _ H2) as V3. destruct (iter_shr_1_digits p _ H2) as [H3 _].
    assert (E : 2 ^ Z.pos p~1 = 2 * (2 ^ Z.pos p * 2 ^ Z.pos p)).
    { rewrite Pos2Z.inj_xI, Z.pow_add_r, Z.pow_twice_r by lia. lia. }
    rewrite E. assert (0 < 2 ^ Z.pos p) by (apply Z.pow_pos_nonneg; lia). nia.
  - pose proof (IH _ Hs) as V2. destruct (iter_shr_1_digits p _ Hs) as [H2 _].
    pose proof (IH _ H2) as V3. destruct (iter_shr_1_digits p _ H2) as [H3 _].
    assert (E : 2 ^ Z.pos p~0 = 2 ^ Z.pos p * 2 ^ Z.pos p).
    { by rewrite (Pos2Z.inj_xO p), Z.pow_twice_r. }
    rewrite E. assert (0 < 2 ^ Z.pos p) by (apply Z.pow_pos_nonneg; lia). nia.
  - pose proof (shr_1_value_low s Hs). simpl. lia.
Qed.

(** What one rounding shift does to a number of [d] digits. *)
Lemma shr_fexp_spec m e l :
  0 ≤ m →
  let n := fexp prec emax (Zdigits2 m + e) - e in
  let '(mrs, e') := shr_fexp prec emax m e l in
  0 ≤ shr_m mrs
  ∧ (n ≤ 0 → shr_m mrs = m ∧ e' = e)
  ∧ (0 < n → e' = e + n
             ∧ Zdigits2 (shr_m mrs) = Z.max 0 (Zdigits2 m - n)
             ∧ shr_m mrs * 2 ^ n ≤ m
             ∧ m < (shr_m mrs + 1) * 2 ^ n).
Proof.
  intros Hm n. unfold shr_fexp, shr. fold n.
  assert (Hrec : shr_m (shr_record_of_loc m l) = m) by (by destruct l as [|[]]).
  destruct n as [|p|p] eqn:En.
  - rewrite Hrec. repeat split; lia.
  - destruct (iter_shr_1_digits p (shr_record_of_loc m l)) as [H1 E1]; [by rewrite Hrec|].
    pose proof (iter_shr_1_value p (shr_record_of_loc m l)) as V1.
    pose proof (iter_shr_1_value_low p (shr_record_of_loc m l)) as V2.
    rewrite Hrec in E1, V1, V2. repeat split; lia.
  - rewrite Hrec. repeat split; lia.
Qed.

(** Rounding a number of at least [prec] digits in the normal range: the
    result is a valid finite number of [prec] digits; it exceeds the input
    by at most one unit of the last place kept and is less than two such
    units below it. *)
Lemma binary_round_aux_normal sx mx ex lx :
  0 < mx →
  prec ≤ Zdigits2 mx →
  -1074 ≤ Zdigits2 mx + ex - prec →
  Zdigits2 mx + ex ≤ emax - 1 →
  ∃ m e,
    binary_round_aux prec emax sx mx ex lx = S754_finite sx m e
    ∧ valid_binary (S754_finite sx m e) = true
    ∧ Zdigits2 (Z.pos m) = prec
    ∧ Zdigits2 mx + ex - prec ≤ e ≤ Zdigits2 mx + ex - prec + 1
    ∧ Z.pos m * 2 ^ (e - ex) ≤ mx + 2 ^ (Zdigits2 mx - prec)
    ∧ mx < Z.pos m * 2 ^ (e - ex) + 2 * 2 ^ (Zdigits2 mx - prec).
Proof.
  intros Hm Hd Hlo Hhi. unfold binary_round_aux.
  assert (Hprec : prec = 53) by reflexivity.
  assert (Hemax : emax = 1024) by reflexivity.
  set (d := Zdigits2 mx) in *.
  pose proof (shr_fexp_spec mx ex lx ltac:(lia)) as H1. fold d in H1.
  assert (Hf1 : fexp prec emax (d + ex) = d + ex - prec).
  { unfold fexp, SpecFloat.emin, emax, prec in *. lia. }
  rewrite Hf1 in H1.
  destruct (shr_fexp prec emax mx ex lx) as [mrs1 e1].
  destruct H1 as (Hm1 & Hz1 & Hp1).
  set (m1 := shr_m mrs1) in *.
  assert (He1 : e1 = d + ex - prec ∧ Zdigits2 m1 = prec ∧ m1 * 2 ^ (d - prec) ≤ mx
                ∧ mx < (m1 + 1) * 2 ^ (d - prec)).
  { destruct (Z_le_gt_dec (d + ex - prec - ex) 0) as [Hle|Hgt].
    - destruct (Hz1 Hle) as [E1 E2]. assert (d = prec) as Hdp by lia.
      split; [lia|]. split; [by rewrite E1|].
      rewrite E1, Hdp, Z.sub_diag, Z.pow_0_r. lia.
    - destruct (Hp1 ltac:(lia)) as (-> & Hd1 & Hv1 & Hw1).
      replace (d + ex - prec - ex) with (d - prec) in * by lia.
      repeat split; [lia|lia|done|done]. }
  destruct He1 as (-> & Hd1 & Hv1 & Hw1).
  assert (Hm1pos : 0 < m1).
  { destruct m1; unfold prec in *; simpl in Hd1; lia. }
  set (l1 := loc_of_shr_record mrs1).
  set (m2 := round_nearest_even m1 l1).
  assert (Hm2 : m1 ≤ m2 ≤ m1 + 1).
  { unfold m2, round_nearest_even. destruct l1 as [|[]]; try destruct (Z.even m1); lia. }
  assert (Hd2 : prec ≤ Zdigits2 m2 ≤ prec + 1).
  { pose proof (Zdigits2_succ m1 ltac:(lia)).
    destruct Hm2 as [H21 H22].
    assert (m2 = m1 ∨ m2 = m1 + 1) as [->| ->] by lia; [lia|].
    split; [|lia]. apply Zdigits2_ge_pow; [done|].
    destruct (Zdigits2_bounds m1 Hm1pos) as [Hb _]. rewrite Hd1 in Hb. lia. }
  pose proof (shr_fexp_spec m2 (d + ex - prec) loc_Exact ltac:(lia)) as H2.
  destruct (shr_fexp prec emax m2 (d + ex - prec) loc_Exact) as [mrs2 e2].
  destruct H2 as (Hm3 & Hz2 & Hp2).
  set (m3 := shr_m mrs2) in *.
  assert (Hf2 : fexp prec emax (Zdigits2 m2 + (d + ex - prec)) = Zdigits2 m2 + (d + ex - prec) - prec).
  { unfold fexp, SpecFloat.emin, emax, prec in *. lia. }
  rewrite Hf2 in Hz2, Hp2.
  assert (H3 : Zdigits2 m3 = prec ∧ e2 = Zdigits2 m2 + (d + ex - prec) - prec
               ∧ m3 * 2 ^ (e2 - (d + ex - prec)) ≤ m2
               ∧ m2 < (m3 + 1) * 2 ^ (e2 - (d + ex - prec))).
  { destruct (Z_le_gt_dec (Zdigits2 m2 + (d + ex - prec) - prec - (d + ex - prec)) 0)
      as [Hle|Hgt].
    - destruct (Hz2 Hle) as [E3 E4]. assert (Zdigits2 m2 = prec) as Hdp by lia.
      split; [by rewrite E3|]. split; [lia|].
      rewrite E3, E4, Z.sub_diag, Z.pow_0_r. lia.
    - destruct (Hp2 ltac:(lia)) as (-> & Hd3 & Hv3 & Hw3).
      replace (d + ex - prec + (Zdigits2 m2 + (d + ex - prec) - prec - (d + ex - prec))
               - (d + ex - prec))
        with (Zdigits2 m2 + (d + ex - prec) - prec - (d + ex - prec)) by lia.
      repeat split; [lia|lia|done|done]. }
  destruct H3 as (Hd3 & -> & Hv3 & Hw3).
  destruct m3 as [|p3|p3] eqn:E3; [unfold prec in *; simpl in Hd3; lia| |lia].
  rewrite (proj2 (Z.leb_le _ _)) by (unfold emax, prec in *; lia).
  exists p3, (Zdigits2 m2 + (d + ex - prec) - prec).
  split; [done|]. split; [|split; [done|split; [lia|]]].
  - unfold FloatAxioms.valid_binary, SpecFloat.valid_binary, bounded, canonical_mantissa.
    apply andb_true_intro. simpl in Hd3. split.
    + apply Z.eqb_eq. rewrite Hd3. unfold fexp, SpecFloat.emin, emax, prec in *. lia.
    + apply Z.leb_le. unfold emax, prec in *. lia.
  - assert (0 < 2 ^ (d - prec)) by (apply Z.pow_pos_nonneg; lia).
    replace (Zdigits2 m2 + (d + ex - prec) - prec - ex)
      with ((Zdigits2 m2 + (d + ex - prec) - prec - (d + ex - prec)) + (d - prec)) by lia.
    rewrite Z.pow_add_r by lia.
    set (n2 := Zdigits2 m2 + (d + ex - prec) - prec - (d + ex - prec)) in *.
    assert (Hn2 : 1 ≤ 2 ^ n2 ≤ 2).
    { split; [apply (Z.pow_le_mono_r 2 0 n2); lia|apply (Z.pow_le_mono_r 2 n2 1); lia]. }
    split; nia.
Qed.

(** The quotient of two integers [0 < c <= n]: a valid float that exceeds
    [c / n] by at most [2 ^ (1 - s)] and is less than [5 * 2 ^ (- s)] below
    it, where [s >= prec] is the shift of the division. *)
Lemma SFdiv_int_value c n :
  0 < c → c ≤ n → n < 2 ^ 1000 →
  let s := prec + Zdigits2 n - Zdigits2 c in
  ∃ m e,
    SFdiv prec emax (Z2SF c) (Z2SF n) = S754_finite false m e
    ∧ valid_binary (S754_finite false m e) = true
    ∧ Zdigits2 (Z.pos m) = prec
    ∧ prec ≤ s
    ∧ 0 ≤ e + s ≤ 2
    ∧ n * (Z.pos m * 2 ^ (e + s)) ≤ c * 2 ^ s + 2 * n
    ∧ c * 2 ^ s < n * (Z.pos m * 2 ^ (e + s)) + 5 * n.
Proof.
  intros Hc Hcn Hn s.
  assert (Hprec : prec = 53) by reflexivity.
  assert (Hemax : emax = 1024) by reflexivity.
  destruct c as [|pc|pc]; try lia. destruct n as [|pn|pn]; try lia.
  simpl Z2SF. cbv beta iota delta [SFdiv]. unfold SFdiv_core_binary.
  set (d1 := Zdigits2 (Z.pos pc)) in *. set (d2 := Zdigits2 (Z.pos pn)) in *.
  destruct (Zdigits2_bounds (Z.pos pc) Hc) as [Hc1 Hc2]. fold d1 in Hc1, Hc2.
  destruct (Zdigits2_bounds (Z.pos pn) ltac:(lia)) as [Hn1 Hn2]. fold d2 in Hn1, Hn2.
  assert (Hd1 : 1 ≤ d1) by (unfold d1; simpl; lia).
  assert (Hd12 : d1 ≤ d2).
  { apply Zdigits2_ge_pow; [lia|]. fold d2. lia. }
  assert (Hd2 : d2 ≤ 1000) by (apply Zdigits2_le_pow; lia).
  assert (He' : Z.min (fexp prec emax (d1 + 0 - (d2 + 0))) (0 - 0) = - s).
  { unfold fexp, SpecFloat.emin, s. lia. }
  rewrite He'. replace (0 - 0 - - s) with s by lia.
  assert (Hs : prec ≤ s) by (unfold s; lia).
  destruct s as [|ps|ps] eqn:Es; try lia. rewrite <- Es in *.
  rewrite Z.shiftl_mul_pow2 by lia.
  pose proof (Z_div_mod (Z.pos pc * 2 ^ s) (Z.pos pn) ltac:(lia)) as Hdm.
  destruct (Z.div_eucl (Z.pos pc * 2 ^ s) (Z.pos pn)) as [q r]. destruct Hdm as [Hq Hr].
  assert (H2s : 0 < 2 ^ s) by (apply Z.pow_pos_nonneg; lia).
  assert (Hlow : 2 ^ 52 ≤ q).
  { assert (E : 2 ^ (d1 - 1) * 2 ^ s = 2 ^ 52 * 2 ^ d2).
    { rewrite <- !Z.pow_add_r by lia. f_equal. unfold s. lia. }
    assert (2 ^ 52 * Z.pos pn < (q + 1) * Z.pos pn); [|nia].
    assert (0 < 2 ^ d2) by (apply Z.pow_pos_nonneg; lia). nia. }
  assert (Hupp : q < 2 ^ 54).
  { assert (E : 2 ^ d1 * 2 ^ s = 2 ^ 54 * 2 ^ (d2 - 1)).
    { rewrite <- !Z.pow_add_r by lia. f_equal. unfold s. lia. }
    assert (q * Z.pos pn < 2 ^ 54 * Z.pos pn); [|nia].
    assert (0 < 2 ^ (d2 - 1)) by (apply Z.pow_pos_nonneg; lia). nia. }
  assert (Hdq : 53 ≤ Zdigits2 q ≤ 54).
  { split; [apply Zdigits2_ge_pow; [lia|exact Hlow]|apply Zdigits2_le_pow; lia]. }
  destruct (binary_round_aux_normal false q (- s) (new_location (Z.pos pn) r))
    as (m & e & Hround & Hvalid & Hdm & He & Hv & Hw); [lia|lia|lia|lia|].
  change (xorb false false) with false.
  rewrite Hround. exists m, e. split; [done|]. split; [done|]. split; [done|].
  split; [done|]. split; [lia|].
  replace (e - - s) with (e + s) in Hv, Hw by lia.
  assert (Hulp : 2 ^ (Zdigits2 q - prec) ≤ 2 ^ 1) by (apply Z.pow_le_mono_r; lia).
  rewrite Z.pow_1_r in Hulp.
  set (v := Z.pos m * 2 ^ (e + s)) in *.
  assert (V1 : Z.pos pn * v ≤ Z.pos pn * (q + 2))
    by (apply Z.mul_le_mono_nonneg_l; lia).
  assert (V2 : Z.pos pn * q ≤ Z.pos pn * (v + 3))
    by (apply Z.mul_le_mono_nonneg_l; lia).
  split; lia.
Qed.

End FloatValue.

Section RateBelow.

Lemma hundredths_checked :
  forallb hundredths_below_100 (Z.of_nat <$> seq 0 (Z.to_nat 10000)) = true.
Proof. vm_compute. reflexivity. Qed.

Lemma hundredths_below k : 0 ≤ k ≤ 9999 → hundredths_below_100 k = true.
Proof.
  intros Hk. pose proof hundredths_checked as H.
  rewrite forallb_forall in H. apply H.
  apply list_elem_of_In, list_elem_of_fmap. exists (Z.to_nat k).
  split; [by rewrite Z2Nat.id by lia|].
  apply list_elem_of_In, in_seq. lia.
Qed.

(** At most [K] when the quotient is below [K + 1/2]. *)
Lemma div_half_even_le n d K :
  0 < d → 0 ≤ n → 2 * n < (2 * K + 1) * d → 0 ≤ div_half_even n d ≤ K.
Proof.
  intros Hd Hn Hlt. unfold div_half_even.
  pose proof (Z.div_mod n d ltac:(lia)) as Hdm.
  pose proof (Z.mod_pos_bound n d Hd) as Hr.
  pose proof (Z.div_pos n d Hn Hd) as Hq.
  assert (n / d ≤ K) by nia.
  destruct (Z.compare_spec (2 * (n mod d)) d); try destruct (Z.even (n / d)); try lia;
    (assert (n / d < K) by nia; lia).
Qed.

Lemma Prim2SF_100 : Prim2SF 100 = S754_finite false 7036874417766400 (-46).
Proof. reflexivity. Qed.

Lemma int_truediv_finite c n m e :
  n ≠ 0 →
  SFdiv prec emax (Z2SF c) (Z2SF n) = S754_finite false m e →
  int_truediv c n = Ok (SF2Prim (S754_finite false m e)).
Proof.
  intros Hn H. unfold int_truediv. rewrite (proj2 (Z.eqb_neq n 0) Hn), H. reflexivity.
Qed.

Lemma rate_of_quotient c n q :
  0 < n → int_truediv c n = Ok q →
  rate_of c n = Ok (Float (round_ndigits (q * 100)%float 2)).
Proof.
  intros Hn H. unfold rate_of. rewrite (proj2 (Z.ltb_lt 0 n) Hn), H. reflexivity.
Qed.

(** With fewer than 20000 results of which one at least is not compliant,
    the rounded rate is a float below 100.0. *)
Lemma rate_of_below c n :
  0 ≤ c < n → n < 20000 →
  ∃ f, rate_of c n = Ok (Float f) ∧ PrimFloat.ltb f 100 = true.
Proof.
  intros [Hc Hcn] Hn.
  destruct (Z.eq_dec c 0) as [->|Hc0].
  { rewrite rate_of_none by lia. by eexists. }
  assert (Hprec : prec = 53) by reflexivity.
  assert (Hemax : emax = 1024) by reflexivity.
  assert (Hn1000 : n < 2 ^ 1000).
  { assert (2 ^ 15 ≤ 2 ^ 1000) by (apply Z.pow_le_mono_r; lia). lia. }
  destruct (SFdiv_int_value c n ltac:(lia) ltac:(lia) Hn1000)
    as (m & e & Hdiv & Hvalid & Hdm & Hs & Het & Hv & _).
  set (s := prec + Zdigits2 n - Zdigits2 c) in *.
  assert (Hd2 : Zdigits2 n ≤ 15) by (apply Zdigits2_le_pow; lia).
  assert (Hd1 : 1 ≤ Zdigits2 c) by (destruct c; simpl; lia).
  rewrite (rate_of_quotient c n _ ltac:(lia) (int_truediv_finite c n m e ltac:(lia) Hdiv)).
  eexists. split; [reflexivity|].
  set (q := SF2Prim (S754_finite false m e)).
  assert (Hq : Prim2SF q = S754_finite false m e) by (by apply Prim2SF_SF2Prim).
  assert (Hx : Prim2SF (q * 100)%float
               = binary_round_aux prec emax false (Z.pos (m * 7036874417766400))
                   (e + -46) loc_Exact).
  { rewrite mul_spec, Hq, Prim2SF_100. reflexivity. }
  destruct (Zdigits2_bounds (Z.pos m) ltac:(lia)) as [Hm1 Hm2]. rewrite Hdm, Hprec in Hm1, Hm2.
  set (M := 7036874417766400%positive) in *.
  set (D := Zdigits2 (Z.pos (m * M))).
  assert (HD : 53 ≤ D ≤ 106).
  { unfold D. rewrite Pos2Z.inj_mul. split.
    - apply Zdigits2_ge_pow; [lia|]. change (2 ^ (53 - 1)) with 4503599627370496.
      change (2 ^ (53 - 1)) with 4503599627370496 in Hm1. unfold M. nia.
    - apply Zdigits2_le_pow; [lia|]. change (2 ^ 106) with (2 ^ 53 * 2 ^ 53).
      change (2 ^ 53) with 9007199254740992 in *. unfold M. nia. }
  destruct (binary_round_aux_normal false (Z.pos (m * M)) (e + -46) loc_Exact)
    as (mx & ex & Hround & _ & _ & Hex & Hvx & _);
    [lia|fold D; lia|fold D; lia|fold D; lia|].
  fold D in Hex, Hvx. rewrite Hround in Hx.
  unfold round_ndigits. rewrite Hx.
  change (323 <? Z.of_nat 2) with false. change (10 ^ Z.of_nat 2) with 100.
  cbv beta iota zeta.
  rewrite (proj2 (Z.leb_gt 0 ex)) by lia.
  assert (Hk : 0 ≤ div_half_even (Z.pos mx * 100) (2 ^ (- ex)) ≤ 9999).
  { apply div_half_even_le; [apply Z.pow_pos_nonneg; lia|lia|].
    set (t := e + s) in *. set (u := ex - (e + -46)) in *.
    assert (Hu : 0 ≤ u) by (unfold u; lia).
    assert (Hpow : 2 ^ (- ex) * (2 ^ u * 2 ^ t) = 2 ^ 46 * 2 ^ s).
    { rewrite <- !Z.pow_add_r by lia. f_equal. unfold u, t. lia. }
    assert (HS : 2 ^ 53 ≤ 2 ^ s) by (apply Z.pow_le_mono_r; lia).
    assert (HT : 1 ≤ 2 ^ t ≤ 4).
    { split; [apply (Z.pow_le_mono_r 2 0 t); lia|apply (Z.pow_le_mono_r 2 t 2); lia]. }
    assert (HU : 0 < 2 ^ u) by (apply Z.pow_pos_nonneg; lia).
    assert (HX : 0 < 2 ^ (- ex)) by (apply Z.pow_pos_nonneg; lia).
    assert (HDp : 2 ^ (D - prec) ≤ 2 ^ 53) by (apply Z.pow_le_mono_r; lia).
    rewrite Pos2Z.inj_mul in Hvx.
    change (2 ^ 53) with 9007199254740992 in *. change (2 ^ 46) with 70368744177664 in *.
    unfold M in *.
    set (S := 2 ^ s) in *. set (T := 2 ^ t) in *. set (U := 2 ^ u) in *.
    set (X := 2 ^ (- ex)) in *. set (Y := 2 ^ (D - prec)) in *.
    clearbody S T U X Y. clear - Hc Hcn Hn Hc0 Hv Hvx Hpow HS HT HU HX HDp.
    destruct (Z_lt_ge_dec (2 * (Z.pos mx * 100)) ((2 * 9999 + 1) * X)) as [|Hge];
      [done|exfalso].
    assert (A1 : 19999 * (X * (U * T)) ≤ 200 * T * (Z.pos mx * U)) by nia.
    assert (A2 : 200 * T * (Z.pos mx * U) ≤ 200 * T * (Z.pos m * 7036874417766400 + Y))
      by (apply Z.mul_le_mono_nonneg_l; lia).
    assert (A3 : 19999 * 70368744177664 * S
                 ≤ 200 * 7036874417766400 * (Z.pos m * T) + 200 * 4 * 9007199254740992)
      by nia.
    assert (A4 : n * (19999 * 70368744177664 * S)
                 ≤ 200 * 7036874417766400 * (n * (Z.pos m * T))
                   + n * (200 * 4 * 9007199254740992)) by nia.
    assert (A5 : n * (19999 * 70368744177664 * S)
                 ≤ 200 * 7036874417766400 * (c * S + 2 * n)
                   + n * (200 * 4 * 9007199254740992)) by nia.
    assert (A6 : 19999 * (n * S) ≤ 20000 * (c * S) + 142400 * n) by nia.
    assert (A7 : c * S ≤ (n - 1) * S) by nia.
    nia. }
  destruct (div_half_even (Z.pos mx * 100) (2 ^ (- ex))) as [|kp|kp] eqn:Ek; [| |lia].
  - apply (hundredths_below 0). lia.
  - apply (hundredths_below (Z.pos kp)). lia.
Qed.

End RateBelow.

(** ** The rate and the exact percentage

    [round(C / N * 100, 2)] rounds the float [C / N * 100], not the exact
    percentage.  Below [2 ^ 32] results the two float roundings are too
    small to move the result by a hundredth: the rate is a nearest
    hundredth of the exact percentage, and only an exact tie can fall to
    either side. *)

Section RateNearest.

(** The integer [div_half_even n d] is within one half of [n / d]. *)
Lemma div_half_even_near n d :
  0 < d → 2 * n - d ≤ 2 * (div_half_even n d * d) ≤ 2 * n + d.
Proof.
  intros Hd. unfold div_half_even.
  pose proof (Z.div_mod n d ltac:(lia)) as Hdm.
  pose proof (Z.mod_pos_bound n d Hd) as Hr.
  destruct (Z.compare_spec (2 * (n mod d)) d); try destruct (Z.even (n / d)); nia.
Qed.

Lemma hundredths_float_checked :
  forallb hundredths_is_float (Z.of_nat <$> seq 0 (Z.to_nat 10001)) = true.
Proof. vm_compute. reflexivity. Qed.

Lemma hundredths_float k : 0 ≤ k ≤ 10000 → ∃ f, int_truediv k 100 = Ok f.
Proof.
  intros Hk. pose proof hundredths_float_checked as H.
  rewrite forallb_forall in H.
  assert (Hf : hundredths_is_float k = true).
  { apply H. apply list_elem_of_In, list_elem_of_fmap. exists (Z.to_nat k).
    split; [by rewrite Z2Nat.id by lia|].
    apply list_elem_of_In, in_seq. lia. }
  unfold hundredths_is_float in Hf. destruct (int_truediv k 100); [eauto|done].
Qed.

Lemma round_hundredths_read_back k f :
  0 ≤ k → int_truediv k 100 = Ok f →
  SF2Prim (SFdiv prec emax
             match k with
             | Z.pos kp => S754_finite false kp 0
             | _ => S754_zero false
             end (Z2SF 100)) = f.
Proof.
  intros Hk. unfold int_truediv. simpl (100 =? 0).
  assert (E : match k with
              | Z.pos kp => S754_finite false kp 0
              | _ => S754_zero false
              end = Z2SF k) by (destruct k; [done|done|lia]).
  rewrite E. destruct (SFdiv prec emax (Z2SF k) (Z2SF 100)); congruence.
Qed.

Lemma rate_of_nearest c n :
  0 ≤ c ≤ n → 0 < n < 2 ^ 32 →
  ∃ k f, rate_of c n = Ok (Float f)
         ∧ int_truediv k 100 = Ok f
         ∧ 0 ≤ k ≤ 10000
         ∧ 2 * Z.abs (k * n - 10000 * c) ≤ n.
Proof.
  intros [Hc Hcn] [Hn0 Hn].
  destruct (Z.eq_dec c 0) as [->|Hc0].
  { exists 0, 0%float. rewrite rate_of_none by lia.
    split; [done|]. split; [reflexivity|]. lia. }
  assert (Hprec : prec = 53) by reflexivity.
  assert (Hemax : emax = 1024) by reflexivity.
  assert (Hn1000 : n < 2 ^ 1000).
  { assert (2 ^ 32 ≤ 2 ^ 1000) by (apply Z.pow_le_mono_r; lia). lia. }
  destruct (SFdiv_int_value c n ltac:(lia) ltac:(lia) Hn1000)
    as (m & e & Hdiv & Hvalid & Hdm & Hs & Het & Hv & Hw).
  set (s := prec + Zdigits2 n - Zdigits2 c) in *.
  rewrite (rate_of_quotient c n _ ltac:(lia) (int_truediv_finite c n m e ltac:(lia) Hdiv)).
  set (q := SF2Prim (S754_finite false m e)).
  assert (Hq : Prim2SF q = S754_finite false m e) by (by apply Prim2SF_SF2Prim).
  assert (Hx : Prim2SF (q * 100)%float
               = binary_round_aux prec emax false (Z.pos (m * 7036874417766400))
                   (e + -46) loc_Exact).
  { rewrite mul_spec, Hq, Prim2SF_100. reflexivity. }
  destruct (Zdigits2_bounds (Z.pos m) ltac:(lia)) as [Hm1 Hm2]. rewrite Hdm, Hprec in Hm1, Hm2.
  set (M := 7036874417766400%positive) in *.
  set (D := Zdigits2 (Z.pos (m * M))).
  assert (HD : 53 ≤ D ≤ 106).
  { unfold D. rewrite Pos2Z.inj_mul. split.
    - apply Zdigits2_ge_pow; [lia|]. change (2 ^ (53 - 1)) with 4503599627370496.
      change (2 ^ (53 - 1)) with 4503599627370496 in Hm1. unfold M. nia.
    - apply Zdigits2_le_pow; [lia|]. change (2 ^ 106) with (2 ^ 53 * 2 ^ 53).
      change (2 ^ 53) with 9007199254740992 in *. unfold M. nia. }
  assert (Hd2 : Zdigits2 n ≤ 32) by (apply Zdigits2_le_pow; lia).
  assert (Hd1 : 1 ≤ Zdigits2 c) by (destruct c; simpl; lia).
  destruct (binary_round_aux_normal false (Z.pos (m * M)) (e + -46) loc_Exact)
    as (mx & ex & Hround & _ & _ & Hex & Hvx & Hwx);
    [lia|fold D; lia|fold D; lia|fold D; lia|].
  fold D in Hex, Hvx, Hwx. rewrite Hround in Hx.
  unfold round_ndigits. rewrite Hx.
  change (323 <? Z.of_nat 2) with false. change (10 ^ Z.of_nat 2) with 100.
  cbv beta iota zeta.
  rewrite (proj2 (Z.leb_gt 0 ex)) by lia.
  set (k := div_half_even (Z.pos mx * 100) (2 ^ (- ex))).
  assert (Hnear : 2 * Z.abs (k * n - 10000 * c) ≤ n).
  { pose proof (div_half_even_near (Z.pos mx * 100) (2 ^ (- ex))
                  ltac:(apply Z.pow_pos_nonneg; lia)) as Hk. fold k in Hk.
    set (t := e + s) in *. set (u := ex - (e + -46)) in *.
    assert (Hu : 0 ≤ u) by (unfold u; lia).
    assert (Hpow : 2 ^ (- ex) * (2 ^ u * 2 ^ t) = 2 ^ 46 * 2 ^ s).
    { rewrite <- !Z.pow_add_r by lia. f_equal. unfold u, t. lia. }
    assert (HS : 2 ^ 53 ≤ 2 ^ s) by (apply Z.pow_le_mono_r; lia).
    assert (HT : 1 ≤ 2 ^ t ≤ 4).
    { split; [apply (Z.pow_le_mono_r 2 0 t); lia|apply (Z.pow_le_mono_r 2 t 2); lia]. }
    assert (HU : 0 < 2 ^ u) by (apply Z.pow_pos_nonneg; lia).
    assert (HX : 0 < 2 ^ (- ex)) by (apply Z.pow_pos_nonneg; lia).
    assert (HY : 0 < 2 ^ (D - prec) ≤ 2 ^ 53).
    { split; [apply Z.pow_pos_nonneg; lia|apply Z.pow_le_mono_r; lia]. }
    rewrite Pos2Z.inj_mul in Hvx, Hwx.
    change (2 ^ 32) with 4294967296 in Hn.
    change (2 ^ 53) with 9007199254740992 in *. change (2 ^ 46) with 70368744177664 in *.
    unfold M in *.
    set (S := 2 ^ s) in *. set (T := 2 ^ t) in *. set (U := 2 ^ u) in *.
    set (X := 2 ^ (- ex)) in *. set (Y := 2 ^ (D - prec)) in *.
    set (mz := Z.pos m) in *. set (mxz := Z.pos mx) in *.
    assert (Hmz : 0 < mz) by (unfold mz; lia).
    assert (Hmxz : 0 < mxz) by (unfold mxz; lia).
    clearbody S T U X Y k mz mxz.
    clear - Hc Hcn Hn0 Hn Hc0 Hv Hw Hvx Hwx Hpow HS HT HU HX HY Hk Hmz Hmxz.
    set (P := 70368744177664 * S) in *.
    assert (HP : 633825300114114700748351602688 ≤ P) by (unfold P; lia).
    assert (HUT : 0 < U * T) by nia.
    (* upper side *)
    assert (B0 : 2 * (k * X) * (U * T) ≤ (2 * (mxz * 100) + X) * (U * T))
      by (apply Z.mul_le_mono_nonneg_r; lia).
    assert (B1 : 2 * k * P ≤ 200 * T * (mxz * U) + P).
    { rewrite <- Hpow. lia. }
    assert (B2 : 200 * T * (mxz * U) ≤ 200 * T * (mz * 7036874417766400 + Y))
      by (apply Z.mul_le_mono_nonneg_l; lia).
    assert (B3 : n * (2 * k * P) ≤ n * (200 * T * (mz * 7036874417766400 + Y) + P))
      by (apply Z.mul_le_mono_nonneg_l; lia).
    assert (B4 : n * (200 * T * (mz * 7036874417766400))
                 = 200 * 7036874417766400 * (n * (mz * T))) by ring.
    assert (B5 : 200 * 7036874417766400 * (n * (mz * T))
                 ≤ 200 * 7036874417766400 * (c * S + 2 * n))
      by (apply Z.mul_le_mono_nonneg_l; lia).
    assert (B6 : 200 * 7036874417766400 * (c * S) = 20000 * c * P) by (unfold P; ring).
    assert (B7 : n * (200 * T * Y) ≤ 4294967296 * (200 * 4 * 9007199254740992)).
    { apply Z.mul_le_mono_nonneg; [lia|lia|nia|].
      apply Z.mul_le_mono_nonneg; [nia|lia|lia|lia]. }
    assert (B8 : (2 * k * n - 20000 * c - n) * P < P) by (unfold P in *; lia).
    assert (B9 : 2 * k * n - 20000 * c - n < 1)
      by (apply (Z.mul_lt_mono_pos_r P); lia).
    (* lower side *)
    assert (L0 : (2 * (mxz * 100) - X) * (U * T) ≤ 2 * (k * X) * (U * T))
      by (apply Z.mul_le_mono_nonneg_r; lia).
    assert (L1 : 200 * T * (mxz * U) - P ≤ 2 * k * P).
    { rewrite <- Hpow. lia. }
    assert (L2 : 200 * T * (mz * 7036874417766400 - 2 * Y) ≤ 200 * T * (mxz * U))
      by (apply Z.mul_le_mono_nonneg_l; lia).
    assert (L3 : n * (200 * T * (mz * 7036874417766400 - 2 * Y) - P) ≤ n * (2 * k * P))
      by (apply Z.mul_le_mono_nonneg_l; lia).
    assert (L5 : 200 * 7036874417766400 * (c * S - 5 * n)
                 ≤ 200 * 7036874417766400 * (n * (mz * T)))
      by (apply Z.mul_le_mono_nonneg_l; lia).
    assert (L7 : n * (400 * T * Y) ≤ 4294967296 * (400 * 4 * 9007199254740992)).
    { apply Z.mul_le_mono_nonneg; [lia|lia|nia|].
      apply Z.mul_le_mono_nonneg; [nia|lia|lia|lia]. }
    assert (L4 : n * (200 * T * (mz * 7036874417766400 - 2 * Y))
                 = 200 * 7036874417766400 * (n * (mz * T)) - n * (400 * T * Y)) by ring.
    assert (L6 : 200 * 7036874417766400 * (c * S - 5 * n)
                 = 20000 * c * P - 1000 * 7036874417766400 * n) by (unfold P; ring).
    assert (L8 : (20000 * c - n - 2 * k * n) * P < P) by (unfold P in *; lia).
    assert (L9 : 20000 * c - n - 2 * k * n < 1)
      by (apply (Z.mul_lt_mono_pos_r P); lia).
    lia. }
  assert (Hk : 0 ≤ k ≤ 10000).
  { split.
    - destruct (Z_le_gt_dec 0 k) as [|Hneg]; [done|exfalso].
      assert (k * n ≤ -1 * n) by (apply Z.mul_le_mono_nonneg_r; lia). lia.
    - destruct (Z_le_gt_dec k 10000) as [|Hbig]; [done|exfalso].
      assert (10001 * n ≤ k * n) by (apply Z.mul_le_mono_nonneg_r; lia). lia. }
  destruct (hundredths_float k Hk) as [f Hf].
  exists k, f. split; [|split; [exact Hf|split; [exact Hk|exact Hnear]]].
  by rewrite (round_hundredths_read_back k f (proj1 Hk) Hf).
Qed.

End RateNearest.

(** C6, as stated, fails when [round] is the rounding of the exact value to
    two decimals: with 23 compliant results out of 160 the percentage is
    14.375 exactly, which rounds to 14.38 with ties to even and with ties
    upwards, and the summary holds the float 14.37, since the float
    [23 / 160 * 100] lies just below 14.375. *)
Lemma generate_summary_rate_not_exact_rounding :
  ∃ summary f f',
    generate_summary "2024-01-01T00:00:00" results_23_of_160 = Ok summary
    ∧ total_resources summary = 160
    ∧ compliant_resources summary = 23
    ∧ compliance_rate summary = Float f
    ∧ int_truediv 1437 100 = Ok f
    ∧ exact_hundredths_half_even 23 160 = 1438
    ∧ exact_hundredths_half_up 23 160 = 1438
    ∧ int_truediv 1438 100 = Ok f'
    ∧ PrimFloat.ltb f f' = true.
Proof.
  do 3 eexists. split; [vm_compute; reflexivity|].
  repeat split; vm_compute; reflexivity.
Qed.

(** C6, amended: on [N] results of which [C] are compliant, with
    [N < 2 ^ 32], [generate_summary] returns a summary with
    [total_resources = N], [compliant_resources = C],
    [non_compliant_resources = N - C], and a [compliance_rate] that is the
    integer 0 when [N = 0] and, when [N > 0], the float [k / 100] for a
    whole number [k] of hundredths between 0 and 10000 that is nearest to
    the exact percentage: [k / 100] differs from [C / N * 100] by at most
    0.005.  At an exact tie either neighbour may come out. *)
Theorem generate_summary_counts_and_nearest_rate
    (utcnow : string) (audit_results : list AuditResult) :
  len audit_results < 2 ^ 32 →
  let N := len audit_results in
  let C := len (filter (λ r, compliant r = true) audit_results) in
  ∃ summary,
    generate_summary utcnow audit_results = Ok summary
    ∧ total_resources summary = N
    ∧ compliant_resources summary = C
    ∧ non_compliant_resources summary = N - C
    ∧ ((N = 0 ∧ compliance_rate summary = Int 0)
       ∨ (0 < N ∧ ∃ k f, compliance_rate summary = Float f
                       ∧ int_truediv k 100 = Ok f
                       ∧ 0 ≤ k ≤ 10000
                       ∧ 2 * Z.abs (k * N - 10000 * C) ≤ N)).
Proof.
  intros Hlen N C. rewrite generate_summary_unfold.
  fold N. change (count_compliant audit_results) with C.
  assert (HC : 0 ≤ C ≤ N) by apply count_compliant_range.
  destruct (Z_lt_ge_dec 0 N) as [Hn|Hn].
  - destruct (rate_of_nearest C N HC ltac:(fold N in Hlen; lia))
      as (k & f & -> & Hf & Hk & Hnear). simpl.
    eexists. split; [reflexivity|]. simpl. repeat split. right.
    split; [done|]. exists k, f. done.
  - unfold rate_of. rewrite (proj2 (Z.ltb_ge 0 N)) by lia. simpl.
    eexists. split; [reflexivity|]. simpl. repeat split. left.
    split; [lia|done].
Qed.

(** C6, amended, at one compliant result out of two. *)
Lemma generate_summary_counts_and_nearest_rate_witness :
  ∃ summary,
    generate_summary "2024-01-01T00:00:00" [audited_vm1; audited_db1] = Ok summary
    ∧ total_resources summary = 2
    ∧ compliant_resources summary = 1
    ∧ non_compliant_resources summary = 2 - 1
    ∧ ((2 = 0 ∧ compliance_rate summary = Int 0)
       ∨ (0 < 2 ∧ ∃ k f, compliance_rate summary = Float f
                       ∧ int_truediv k 100 = Ok f
                       ∧ 0 ≤ k ≤ 10000
                       ∧ 2 * Z.abs (k * 2 - 10000 * 1) ≤ 2)).
Proof.
  apply (generate_summary_counts_and_nearest_rate "2024-01-01T00:00:00"
           [audited_vm1; audited_db1]).
  reflexivity.
Defined.

Section ExitCode.

Lemma filter_length_full {A} (P : A → Prop) `{!∀ x, Decision (P x)} (l : list A) :
  len (filter P l) = len l ↔ Forall P l.
Proof.
  unfold len. split.
  - intros Hlen. apply Nat2Z.inj in Hlen.
    induction l as [|x l IH]; [constructor|].
    rewrite filter_cons in Hlen. pose proof (length_filter P l) as Hle.
    case_decide as Hx; simpl in Hlen; [|lia].
    constructor; [done|]. apply IH. lia.
  - intros Hall. f_equal. induction Hall as [|x l Hx _ IH]; [done|].
    rewrite filter_cons, decide_True by done. simpl. by rewrite IH.
Qed.

End ExitCode.

(** X24: for at least one and fewer than 20000 results, the rate is a
    float that is below 100.0 exactly when some result is not compliant:
    rounding to two decimals cannot reach 100.0 from below. *)
Theorem generate_summary_rate_below_100 (utcnow : string) (audit_results : list AuditResult) :
  audit_results ≠ [] →
  len audit_results < 20000 →
  ∃ summary f,
    generate_summary utcnow audit_results = Ok summary
    ∧ compliance_rate summary = Float f
    ∧ (PrimFloat.ltb f 100 = true ↔ ¬ Forall (λ r, compliant r = true) audit_results).
Proof.
  intros Hne Hlt. rewrite generate_summary_unfold.
  pose proof (count_compliant_range audit_results) as Hr.
  pose proof (count_compliant_full audit_results) as Hfull.
  pose proof (len_pos _ Hne) as Hpos.
  destruct (Z.eq_dec (count_compliant audit_results) (len audit_results)) as [E|E].
  - rewrite E, (rate_of_all _ Hpos). simpl. do 2 eexists. split; [reflexivity|].
    split; [reflexivity|]. split; [done|]. intros H. exfalso. by apply H, Hfull.
  - destruct (rate_of_below (count_compliant audit_results) (len audit_results))
      as (f & -> & Hf); [lia|lia|].
    simpl. do 2 eexists. split; [reflexivity|]. split; [reflexivity|].
    split; [|done]. intros _ H. by apply E, Hfull.
Qed.

(** X24 at one compliant and one non-compliant result. *)
Lemma generate_summary_rate_below_100_witness :
  ∃ summary f,
    generate_summary "2024-01-01T00:00:00" [audited_vm1; audited_db1] = Ok summary
    ∧ compliance_rate summary = Float f
    ∧ (PrimFloat.ltb f 100 = true
       ↔ ¬ Forall (λ r, compliant r = true) [audited_vm1; audited_db1]).
Proof. apply generate_summary_rate_below_100; [done|reflexivity]. Defined.

(** X25: when authentication succeeds and the listing returns at least one
    and fewer than 20000 resources, all with identifiers that yield a group,
    [main] exits with code 0 if every resource has the three required keys
    and with code 1 otherwise. *)
Theorem main_exit_code_below_20000 (float_repr : float → string)
    (output_json : list AuditResult → Summary → list string → list string)
    (client : AzureClient) (args : Args) (utcnow : string) (resources : list Resource) :
  probe client = Ok tt →
  listing client (arg_resource_group args) = Ok resources →
  resources ≠ [] →
  len resources < 20000 →
  Forall (λ r, ∃ rg, resource_group_of (id r) = Ok rg) resources →
  ∃ code stdout err,
    main float_repr output_json client args utcnow = (Exit code, stdout, err)
    ∧ (code = 0 ∨ code = 1)
    ∧ (code = 0
       ↔ Forall (λ r, Forall (λ tag, tag ∈ dom (default ∅ (tags r))) REQUIRED_TAGS)
           resources).
Proof.
  intros Hp Hl Hne Hlt Hids.
  destruct (audit_all_total resources Hids) as [results Hall].
  destruct (main_reports float_repr output_json client args utcnow resources results
              Hp Hl Hne Hall) as (rate & stdout & err & Hrate & ->).
  destruct (count_compliant_audited _ _ Hall) as [Hc Hlen].
  pose proof (filter_length_full has_required_keys resources) as Hfull.
  pose proof (count_compliant_range results) as Hr.
  pose proof (len_pos _ Hne) as Hpos.
  rewrite Hc, Hlen in Hrate, Hr.
  destruct (Z.eq_dec (len (filter has_required_keys resources)) (len resources)) as [E|E].
  - rewrite E, (rate_of_all _ Hpos) in Hrate. injection Hrate as <-. simpl.
    exists 0. do 2 eexists. split; [reflexivity|]. split; [by left|].
    split; [|done]. intros _. by apply Hfull.
  - destruct (rate_of_below (len (filter has_required_keys resources)) (len resources))
      as (f & Hf & Hlt100); [lia|lia|].
    rewrite Hf in Hrate. injection Hrate as <-. simpl. rewrite Hlt100.
    exists 1. do 2 eexists. split; [reflexivity|]. split; [by right|].
    split; [done|]. intros H. exfalso. by apply E, Hfull.
Qed.

(** X25 at a client that lists [vm1], which lacks two tags, and [db1]. *)
Lemma main_exit_code_below_20000_witness :
  ∃ code stdout err,
    main no_repr no_json healthy_client text_args "2024-01-01T00:00:00"
    = (Exit code, stdout, err)
    ∧ (code = 0 ∨ code = 1)
    ∧ (code = 0
       ↔ Forall (λ r, Forall (λ tag, tag ∈ dom (default ∅ (tags r))) REQUIRED_TAGS)
           [vm1; db1]).
Proof.
  apply (main_exit_code_below_20000 _ _ healthy_client text_args _ [vm1; db1]);
    [reflexivity|reflexivity|done|reflexivity|].
  repeat constructor; by eexists.
Defined.

(** X26 at a client whose subscription listing raises an exception that
    is not an [AzureError]. *)
Lemma run_audit_other_exception_witness :
  ∃ err', run_audit crashing_listing_client None []
          = (Raise (OtherException "connection reset"), err').
Proof.
  apply (run_audit_other_exception crashing_listing_client None
           (OtherException "connection reset")); reflexivity.
Defined.
